(** * Speech_To_Text front end: session, request and live-stream client

    A shallow embedding of [Frontend/src/lib/api.ts] (the request client and
    the live-captioning client) and of the handlers of [Frontend/src/App.tsx]
    (file upload, batch upload, record toggle, live-captioning toggle and the
    unmount cleanup), followed by the properties of the specification that
    concern them.

    Conventions of the embedding:
    - a JavaScript value that comes out of [JSON.parse] or [response.json()]
      is a [value]; property reads, truthiness and string conversion follow
      ECMAScript;
    - a handler is a computation in [Eff]: it produces, in program order, the
      state-setter calls, outbound requests, socket operations and console
      lines it performs, and ends normally or by throwing;
    - a handler reads the component state through the closure of the render
      that created it (its snapshot); its setter calls are applied to the
      state that is current when they run;
    - what the network answers is an input: a [Net] maps each request to the
      outcome of its [fetch]. *)

From Stdlib Require Import String Ascii List Bool Arith QArith Lia.
Import ListNotations.
Close Scope Q_scope.
Open Scope string_scope.
Open Scope list_scope.
Set Warnings "-register-all".

(** ** JavaScript values *)

Definition LF : string := String (ascii_of_nat 10) EmptyString.

(** A number as the program can observe it: its value, and the text
    [Number.prototype.toString] prints for it (the double-to-decimal
    algorithm belongs to the engine). *)
Record number : Type := mkNumber { num_value : Q; num_text : string }.

Inductive value : Type :=
| VUndefined
| VNull
| VBool (b : bool)
| VNum (n : number)
| VStr (s : string)
| VArr (elements : list value)
| VObj (members : list (string * value)).

(** Thrown values.  Everything [fetch], [response.json()], [JSON.parse] and
    a failed property read throw is an instance of [Error]; [NonError] stands
    for any other thrown value. *)
Inductive exn : Type :=
| Error (message : string)
| TypeError (message : string)
| SyntaxError (message : string)
| NonError (v : value).

Definition instanceof_Error (e : exn) : bool :=
  match e with
  | NonError _ => false
  | _ => true
  end.

Definition message (e : exn) : string :=
  match e with
  | Error m | TypeError m | SyntaxError m => m
  | NonError _ => ""
  end.

(** [if (v)]: ToBoolean. *)
Definition truthy (v : value) : bool :=
  match v with
  | VUndefined | VNull => false
  | VBool b => b
  | VNum n => negb (Qeq_bool (num_value n) 0%Q)
  | VStr s => negb (String.eqb s "")
  | VArr _ | VObj _ => true
  end.

(** Own data property of an object; the members of a parsed object have
    distinct keys and are listed in the order the engine enumerates them. *)
Fixpoint lookup (key : string) (members : list (string * value)) : value :=
  match members with
  | [] => VUndefined
  | (k, v) :: rest => if String.eqb k key then v else lookup key rest
  end.

(** [v.key] for the keys this program reads ([text], [segments],
    [sessionId]): reading from [undefined] or [null] throws, a primitive or
    an array has no such property. *)
Definition get_prop (v : value) (key : string) : exn + value :=
  match v with
  | VUndefined =>
      inl (TypeError ("Cannot read properties of undefined (reading '" ++ key ++ "')"))
  | VNull =>
      inl (TypeError ("Cannot read properties of null (reading '" ++ key ++ "')"))
  | VObj members => inr (lookup key members)
  | _ => inr VUndefined
  end.

(** ToString, as string concatenation applies it. *)
Fixpoint ToString (v : value) : string :=
  match v with
  | VUndefined => "undefined"
  | VNull => "null"
  | VBool true => "true"
  | VBool false => "false"
  | VNum n => num_text n
  | VStr s => s
  | VArr elements =>
      String.concat ","
        (map (fun x => match x with
                       | VUndefined | VNull => ""
                       | _ => ToString x
                       end) elements)
  | VObj _ => "[object Object]"
  end.

(** [Array.prototype.join]: [undefined] and [null] elements print as the
    empty string. *)
Definition Array_join (sep : string) (elements : list value) : string :=
  String.concat sep
    (map (fun x => match x with
                   | VUndefined | VNull => ""
                   | _ => ToString x
                   end) elements).

(** ** The types of api.ts *)

Module types.

Record TranscriptionOptions : Type := mkOptions {
  modelSize : string;
  inputLanguage : string;
  outputLanguage : string;
  format : string;
  preprocess : bool;
  highPass : bool;
  hpCutoff : number;
  hpOrder : number;
  temperature : number
}.

Record TranscriptionSegment : Type := mkSegment {
  text : string;
  start : number;
  end_ : number
}.

Record TranscriptionResult : Type := mkResult {
  original_language : string;
  output_language : string;
  language_probability : number;
  segments : list TranscriptionSegment;
  output_file : string
}.

(** The object [JSON.stringify(options)] serialises. *)
Definition options_value (o : TranscriptionOptions) : value :=
  VObj [ ("modelSize", VStr (modelSize o));
         ("inputLanguage", VStr (inputLanguage o));
         ("outputLanguage", VStr (outputLanguage o));
         ("format", VStr (format o));
         ("preprocess", VBool (preprocess o));
         ("highPass", VBool (highPass o));
         ("hpCutoff", VNum (hpCutoff o));
         ("hpOrder", VNum (hpOrder o));
         ("temperature", VNum (temperature o)) ].

(** When a value has the shape the type [TranscriptionResult] declares. *)
Definition as_string (v : value) : option string :=
  match v with VStr s => Some s | _ => None end.

Definition as_number (v : value) : option number :=
  match v with VNum n => Some n | _ => None end.

Definition as_TranscriptionSegment (v : value) : option TranscriptionSegment :=
  match v with
  | VObj m =>
      match as_string (lookup "text" m), as_number (lookup "start" m),
            as_number (lookup "end" m) with
      | Some t, Some s, Some e => Some (mkSegment t s e)
      | _, _, _ => None
      end
  | _ => None
  end.

Fixpoint as_segments (l : list value) : option (list TranscriptionSegment) :=
  match l with
  | [] => Some []
  | v :: rest =>
      match as_TranscriptionSegment v, as_segments rest with
      | Some s, Some ss => Some (s :: ss)
      | _, _ => None
      end
  end.

Definition as_TranscriptionResult (v : value) : option TranscriptionResult :=
  match v with
  | VObj m =>
      match as_string (lookup "original_language" m),
            as_string (lookup "output_language" m),
            as_number (lookup "language_probability" m),
            lookup "segments" m,
            as_string (lookup "output_file" m) with
      | Some il, Some ol, Some p, VArr l, Some f =>
          match as_segments l with
          | Some ss => Some (mkResult il ol p ss f)
          | None => None
          end
      | _, _, _, _, _ => None
      end
  | _ => None
  end.

Definition segment_value (s : TranscriptionSegment) : value :=
  VObj [ ("text", VStr (text s)); ("start", VNum (start s)); ("end", VNum (end_ s)) ].

Definition result_value (r : TranscriptionResult) : value :=
  VObj [ ("original_language", VStr (original_language r));
         ("output_language", VStr (output_language r));
         ("language_probability", VNum (language_probability r));
         ("segments", VArr (map segment_value (segments r)));
         ("output_file", VStr (output_file r)) ].

(** Segments in non-decreasing [start] order. *)
Fixpoint start_ordered (l : list TranscriptionSegment) : Prop :=
  match l with
  | [] => True
  | s :: rest =>
      match rest with
      | [] => True
      | s' :: _ => (num_value (start s) <= num_value (start s'))%Q
      end /\ start_ordered rest
  end.

End types.
Import types.

(** ** Requests, responses and the network *)

Record File : Type := mkFile { name : string; bytes : list ascii }.

Inductive FormValue : Type :=
| FormText (s : string)
| FormFile (f : File) (filename : string).

Inductive Body : Type :=
| FormData (entries : list (string * FormValue))
| JsonText (v : value).      (* JSON.stringify(v) *)

Record Request : Type := mkRequest {
  url : string;
  method : string;
  headers : list (string * string);
  body : Body
}.

(** A response: its [ok] flag and what [response.json()] settles to. *)
Record Response : Type := mkResponse { ok : bool; json : exn + value }.

Inductive FetchOutcome : Type :=
| Rejects (e : exn)          (* network failure *)
| Resolves (r : Response).

Definition Net : Type := Request -> FetchOutcome.

(** ** Effects *)

Inductive LogArg : Type :=
| LogExn (e : exn)
| LogEvent.                  (* the Event object of ws.onerror *)

Inductive Action : Type :=
| SetFileTranscription (s : string)
| SetMicTranscription (s : string)
| SetBatchTranscription (s : string)
| AppendLive (fragment : value)  (* setLiveTranscription(prev => prev + '\n' + text) *)
| SetIsRecording (b : bool)
| SetIsProcessing (b : bool)
| SetCurrentSessionId (v : value)
| SetError (e : option string)
| Fetch (r : Request)
| NewWebSocket (ws : nat) (wsUrl : string) (options : TranscriptionOptions)
| WsSend (ws : nat) (payload : value)
| WsClose (ws : nat)
| ConsoleError (prefix : option string) (arg : LogArg).

(** A computation: the actions it performed, and how it ended. *)
Definition Eff (A : Type) : Type := list Action * (exn + A).

Definition ret {A} (a : A) : Eff A := ([], inr a).

Definition throw {A} (e : exn) : Eff A := ([], inl e).

Definition emit (a : Action) : Eff unit := ([a], inr tt).

Definition bind {A B} (m : Eff A) (k : A -> Eff B) : Eff B :=
  match m with
  | (t, inl e) => (t, inl e)
  | (t, inr a) => let (t', r) := k a in (t ++ t', r)
  end.

(** [try { m } catch (err) { h err }] *)
Definition try_catch {A} (m : Eff A) (h : exn -> Eff A) : Eff A :=
  match m with
  | (t, inl e) => let (t', r) := h e in (t ++ t', r)
  | (t, inr a) => (t, inr a)
  end.

(** [try { m } finally { f }] *)
Definition try_finally {A} (m : Eff A) (f : Eff unit) : Eff A :=
  let (t, r) := m in
  match f with
  | (t', inl e) => (t ++ t', inl e)
  | (t', inr _) => (t ++ t', r)
  end.

Definition lift {A} (r : exn + A) : Eff A := ([], r).

Declare Scope eff_scope.
Delimit Scope eff_scope with eff.
Notation "x <- m ;; k" := (bind m (fun x => k))
  (at level 61, m at next level, right associativity) : eff_scope.
Notation "m ;; k" := (bind m (fun _ => k))
  (at level 61, right associativity) : eff_scope.
Open Scope eff_scope.

Definition trace {A} (m : Eff A) : list Action := fst m.
Definition outcome {A} (m : Eff A) : exn + A := snd m.

(** [await fetch(url, init)] *)
Definition fetch (net : Net) (req : Request) : Eff Response :=
  emit (Fetch req) ;;
  match net req with
  | Rejects e => throw e
  | Resolves r => ret r
  end.

(** ** api.ts *)

Definition BASE_URL : string := "http://localhost:8000".

Module api.

Definition transcribeFile (net : Net) (file : File) (options : TranscriptionOptions)
  : Eff value :=
  let formData :=
    [ ("file", FormFile file (name file));
      ("model_size", FormText (modelSize options));
      ("input_lang", FormText (inputLanguage options));
      ("output_lang", FormText (outputLanguage options));
      ("out_format", FormText (format options)) ] in
  response <- fetch net (mkRequest (BASE_URL ++ "/transcribe") "POST" [] (FormData formData)) ;;
  if negb (ok response) then throw (Error "Transcription failed")
  else lift (json response).

Definition transcribeBatch (net : Net) (files : list File) (options : TranscriptionOptions)
  : Eff value :=
  let formData :=
    map (fun file => ("files", FormFile file (name file))) files ++
    [ ("model_size", FormText (modelSize options));
      ("input_lang", FormText (inputLanguage options));
      ("output_lang", FormText (outputLanguage options));
      ("out_format", FormText (format options)) ] in
  response <- fetch net (mkRequest (BASE_URL ++ "/transcribe-batch") "POST" [] (FormData formData)) ;;
  if negb (ok response) then throw (Error "Batch transcription failed")
  else lift (json response).

Definition startRecording (net : Net) (options : TranscriptionOptions) : Eff value :=
  let formData :=
    [ ("model_size", FormText (modelSize options));
      ("input_lang", FormText (inputLanguage options));
      ("output_lang", FormText (outputLanguage options)) ] in
  response <- fetch net (mkRequest (BASE_URL ++ "/start-recording") "POST" [] (FormData formData)) ;;
  if negb (ok response) then throw (Error "Failed to start recording")
  else
    data <- lift (json response) ;;
    lift (get_prop data "sessionId").

Definition stopRecording (net : Net) (sessionId : value) : Eff value :=
  response <- fetch net
    (mkRequest (BASE_URL ++ "/stop-recording") "POST"
       [("Content-Type", "application/json")]
       (JsonText (VObj [("sessionId", sessionId)]))) ;;
  if negb (ok response) then throw (Error "Failed to stop recording")
  else lift (json response).

(** What [JSON.parse(event.data)] makes of an incoming frame. *)
Inductive Frame : Type :=
| Unparsable (raw : string)
| Parsed (v : value).

Definition JSON_parse (data : Frame) : exn + value :=
  match data with
  | Unparsable _ => inl (SyntaxError "Unexpected token in JSON")
  | Parsed v => inr v
  end.

(** [BASE_URL.replace(/^http/, "ws")] *)
Definition replace_http (s : string) : string :=
  if String.prefix "http" s
  then "ws" ++ String.substring 4 (String.length s - 4) s
  else s.

Definition wsUrl : string := replace_http BASE_URL ++ "/live-captioning".

(** The three handlers [startLiveCaptioning] installs on its socket; the
    runtime calls them with the socket, options and subscriber of the call
    that created the socket. *)
Definition ws_onopen (ws : nat) (options : TranscriptionOptions) : Eff unit :=
  emit (WsSend ws (options_value options)).

Definition ws_onmessage (onUpdate : value -> Eff unit) (event_data : Frame) : Eff unit :=
  try_catch
    (data <- lift (JSON_parse event_data) ;;
     text <- lift (get_prop data "text") ;;
     if truthy text then onUpdate text else ret tt)
    (fun error =>
       emit (ConsoleError (Some "Error parsing WebSocket message:") (LogExn error))).

Definition ws_onerror : Eff unit :=
  emit (ConsoleError (Some "Live captioning error:") LogEvent).

(** Opens socket number [ws] and returns the cleanup [() => ws.close()]. *)
Definition startLiveCaptioning (ws : nat) (options : TranscriptionOptions)
    (onUpdate : value -> Eff unit) : Eff (Eff unit) :=
  emit (NewWebSocket ws wsUrl options) ;;
  ret (emit (WsClose ws)).

End api.

(** ** App.tsx *)

Module App.

Record AppState : Type := mkApp {
  selectedTab : string;
  fileTranscription : string;
  micTranscription : string;
  batchTranscription : string;
  liveTranscription : string;
  inputLang : string;
  outputLang : string;
  modelSize : string;
  isRecording : bool;
  isProcessing : bool;
  currentSessionId : value;
  error : option string;
  copySuccess : bool
}.

(** The [useState] initial values. *)
Definition initialState : AppState :=
  {| selectedTab := "file";
     fileTranscription := "";
     micTranscription := "";
     batchTranscription := "";
     liveTranscription := "";
     inputLang := "auto";
     outputLang := "en";
     modelSize := "medium";
     isRecording := false;
     isProcessing := false;
     currentSessionId := VNull;
     error := None;
     copySuccess := false |}.

(** What a setter call does to the state that is current when it runs;
    the other actions leave the component state alone. *)
Definition apply (s : AppState) (a : Action) : AppState :=
  match a with
  | SetFileTranscription x =>
      mkApp (selectedTab s) x (micTranscription s) (batchTranscription s)
            (liveTranscription s) (inputLang s) (outputLang s) (modelSize s)
            (isRecording s) (isProcessing s) (currentSessionId s) (error s) (copySuccess s)
  | SetMicTranscription x =>
      mkApp (selectedTab s) (fileTranscription s) x (batchTranscription s)
            (liveTranscription s) (inputLang s) (outputLang s) (modelSize s)
            (isRecording s) (isProcessing s) (currentSessionId s) (error s) (copySuccess s)
  | SetBatchTranscription x =>
      mkApp (selectedTab s) (fileTranscription s) (micTranscription s) x
            (liveTranscription s) (inputLang s) (outputLang s) (modelSize s)
            (isRecording s) (isProcessing s) (currentSessionId s) (error s) (copySuccess s)
  | AppendLive fragment =>
      mkApp (selectedTab s) (fileTranscription s) (micTranscription s) (batchTranscription s)
            (liveTranscription s ++ LF ++ ToString fragment)
            (inputLang s) (outputLang s) (modelSize s)
            (isRecording s) (isProcessing s) (currentSessionId s) (error s) (copySuccess s)
  | SetIsRecording b =>
      mkApp (selectedTab s) (fileTranscription s) (micTranscription s) (batchTranscription s)
            (liveTranscription s) (inputLang s) (outputLang s) (modelSize s)
            b (isProcessing s) (currentSessionId s) (error s) (copySuccess s)
  | SetIsProcessing b =>
      mkApp (selectedTab s) (fileTranscription s) (micTranscription s) (batchTranscription s)
            (liveTranscription s) (inputLang s) (outputLang s) (modelSize s)
            (isRecording s) b (currentSessionId s) (error s) (copySuccess s)
  | SetCurrentSessionId v =>
      mkApp (selectedTab s) (fileTranscription s) (micTranscription s) (batchTranscription s)
            (liveTranscription s) (inputLang s) (outputLang s) (modelSize s)
            (isRecording s) (isProcessing s) v (error s) (copySuccess s)
  | SetError e =>
      mkApp (selectedTab s) (fileTranscription s) (micTranscription s) (batchTranscription s)
            (liveTranscription s) (inputLang s) (outputLang s) (modelSize s)
            (isRecording s) (isProcessing s) (currentSessionId s) e (copySuccess s)
  | Fetch _ | NewWebSocket _ _ _ | WsSend _ _ | WsClose _ | ConsoleError _ _ => s
  end.

Definition exec (s : AppState) (t : list Action) : AppState := fold_left apply t s.

Definition num (q : Q) (shown : string) : number := mkNumber q shown.

Definition getTranscriptionOptions (snap : AppState) : TranscriptionOptions :=
  {| types.modelSize := modelSize snap;
     inputLanguage := inputLang snap;
     outputLanguage := outputLang snap;
     format := "txt";
     preprocess := true;
     highPass := true;
     hpCutoff := num 80 "80";
     hpOrder := num 4 "4";
     temperature := num 0 "0" |}.

(** [xs.map(f)] on a value: only an array has [map]. *)
Fixpoint mapM (f : value -> Eff value) (l : list value) : Eff (list value) :=
  match l with
  | [] => ret []
  | x :: rest => y <- f x ;; ys <- mapM f rest ;; ret (y :: ys)
  end.

Definition Array_map (f : value -> Eff value) (xs : value) : Eff (list value) :=
  match xs with
  | VArr l => mapM f l
  | VUndefined => throw (TypeError "Cannot read properties of undefined (reading 'map')")
  | VNull => throw (TypeError "Cannot read properties of null (reading 'map')")
  | _ => throw (TypeError "map is not a function")
  end.

(** [result.segments.map(segment => segment.text).join('\n')] *)
Definition joined_segments (result : value) : Eff string :=
  segs <- lift (get_prop result "segments") ;;
  texts <- Array_map (fun segment => lift (get_prop segment "text")) segs ;;
  ret (Array_join LF texts).

Definition message_or (err : exn) (fallback : string) : string :=
  if instanceof_Error err then message err else fallback.

(** [event.target.files?.[0]] *)
Definition first_file (files : option (list File)) : option File :=
  match files with
  | Some (f :: _) => Some f
  | _ => None
  end.

(** 1) File upload *)
Definition handleFileUpload (net : Net) (snap : AppState) (files : option (list File))
  : Eff unit :=
  match first_file files with
  | None => ret tt
  | Some file =>
      try_finally
        (try_catch
           (emit (SetIsProcessing true) ;;
            emit (SetError None) ;;
            result <- api.transcribeFile net file (getTranscriptionOptions snap) ;;
            joined <- joined_segments result ;;
            emit (SetFileTranscription joined))
           (fun err => emit (SetError (Some (message_or err "Failed to process file")))))
        (emit (SetIsProcessing false))
  end.

(** [Object.values(results)] *)
Fixpoint chars (s : string) : list value :=
  match s with
  | EmptyString => []
  | String c rest => VStr (String c EmptyString) :: chars rest
  end.

Definition Object_values (v : value) : Eff (list value) :=
  match v with
  | VObj members => ret (map snd members)
  | VArr l => ret l
  | VStr s => ret (chars s)
  | VBool _ | VNum _ => ret []
  | VUndefined | VNull => throw (TypeError "Cannot convert undefined or null to object")
  end.

Fixpoint mapM_string (f : value -> Eff string) (l : list value) : Eff (list string) :=
  match l with
  | [] => ret []
  | x :: rest => y <- f x ;; ys <- mapM_string f rest ;; ret (y :: ys)
  end.

(** 2) Batch upload; [files] is [Array.from(event.target.files || [])]. *)
Definition handleBatchUpload (net : Net) (snap : AppState) (target_files : option (list File))
  : Eff unit :=
  let files := match target_files with Some l => l | None => [] end in
  if Nat.eqb (List.length files) 0 then ret tt
  else
    try_finally
      (try_catch
         (emit (SetIsProcessing true) ;;
          emit (SetError None) ;;
          results <- api.transcribeBatch net files (getTranscriptionOptions snap) ;;
          values <- Object_values results ;;
          parts <- mapM_string joined_segments values ;;
          let combinedTranscription := String.concat (LF ++ LF) parts in
          emit (SetBatchTranscription combinedTranscription))
         (fun err => emit (SetError (Some (message_or err "Failed to process files")))))
      (emit (SetIsProcessing false)).

(** 3) Microphone (start/stop) *)
Definition handleRecordToggle (net : Net) (snap : AppState) : Eff unit :=
  if isRecording snap then
    (if truthy (currentSessionId snap) then
       try_catch
         (result <- api.stopRecording net (currentSessionId snap) ;;
          joined <- joined_segments result ;;
          emit (SetMicTranscription joined))
         (fun err => emit (SetError (Some (message_or err "Failed to stop recording"))))
     else ret tt) ;;
    emit (SetIsRecording false) ;;
    emit (SetCurrentSessionId VNull)
  else
    try_catch
      (sessionId <- api.startRecording net (getTranscriptionOptions snap) ;;
       emit (SetCurrentSessionId sessionId) ;;
       emit (SetIsRecording true) ;;
       emit (SetError None))
      (fun err => emit (SetError (Some (message_or err "Failed to start recording")))).

(** 4) Live captioning.  The subscriber handed to the client: *)
Definition onUpdate (text : value) : Eff unit := emit (AppendLive text).

(** [start] and [stop] read and write the local variable [cleanup]; each
    returns its new content. *)
Definition live_start (ws : nat) (snap : AppState) : Eff (option (Eff unit)) :=
  emit (SetIsRecording true) ;;
  emit (SetError None) ;;
  cancel <- api.startLiveCaptioning ws (getTranscriptionOptions snap) onUpdate ;;
  ret (Some cancel).

Definition live_stop (cleanup : option (Eff unit)) : Eff (option (Eff unit)) :=
  cleanup' <- match cleanup with
              | Some cancel => cancel ;; ret None
              | None => ret None
              end ;;
  emit (SetIsRecording false) ;;
  ret cleanup'.

(** [let cleanup = null] is a local of the callback body: every invocation
    starts from [null].  [ws] is the number the next socket gets. *)
Definition handleLiveCaptioning (ws : nat) (snap : AppState) : Eff unit :=
  let cleanup : option (Eff unit) := None in
  (if isRecording snap then live_stop cleanup else live_start ws snap) ;;
  ret tt.

(** The cleanup of the [useEffect] on [currentSessionId]:
    [api.stopRecording(currentSessionId).catch(console.error)]. *)
Definition effectCleanup (net : Net) (snap : AppState) : Eff unit :=
  if truthy (currentSessionId snap) then
    try_catch
      (api.stopRecording net (currentSessionId snap) ;; ret tt)
      (fun err => emit (ConsoleError None (LogExn err)))
  else ret tt.

End App.

(** ** The browser around the component

    The part of the WebSocket interface the program relies on: [new
    WebSocket] yields a socket that is CONNECTING; [close()] moves a socket
    that is CONNECTING or OPEN to CLOSING at once and does nothing otherwise;
    a frame that arrives while the socket is not OPEN is not dispatched to
    [onmessage].  Each event runs its handler to completion on the state of
    the latest render.  The effect cleanup is run at unmount; its runs
    between two renders that differ in [currentSessionId] call no setter and
    are left out, so the trace of a step holds what the handler itself did,
    not the further stop request such a run sends. *)

Module Runtime.

Inductive ReadyState : Type := CONNECTING | OPEN | CLOSING | CLOSED.

Record Socket : Type := mkSocket {
  sock_url : string;
  sock_options : TranscriptionOptions;
  readyState : ReadyState
}.

Record World : Type := mkWorld {
  app : App.AppState;
  sockets : list Socket
}.

Definition initialWorld : World := mkWorld App.initialState [].

Definition set_readyState (r : ReadyState) (s : Socket) : Socket :=
  mkSocket (sock_url s) (sock_options s) r.

Definition close (s : Socket) : Socket :=
  match readyState s with
  | CONNECTING | OPEN => set_readyState CLOSING s
  | CLOSING | CLOSED => s
  end.

Fixpoint update (ws : nat) (f : Socket -> Socket) (l : list Socket) : list Socket :=
  match l, ws with
  | [], _ => []
  | s :: rest, O => f s :: rest
  | s :: rest, S n => s :: update n f rest
  end.

Definition state_of (w : World) (ws : nat) : option ReadyState :=
  option_map readyState (nth_error (sockets w) ws).

Definition is_open (w : World) (ws : nat) : bool :=
  match state_of w ws with
  | Some OPEN => true
  | _ => false
  end.

(** What one action of a handler does to the world. *)
Definition perform (w : World) (a : Action) : World :=
  match a with
  | NewWebSocket _ wsUrl options =>
      mkWorld (app w) (sockets w ++ [mkSocket wsUrl options CONNECTING])
  | WsClose ws => mkWorld (app w) (update ws close (sockets w))
  | _ => mkWorld (App.apply (app w) a) (sockets w)
  end.

Definition run (w : World) (t : list Action) : World := fold_left perform t w.

Inductive Event : Type :=
| FileChange (net : Net) (files : option (list File))
| BatchChange (net : Net) (files : option (list File))
| RecordClick (net : Net)
| LiveClick
| Unmount (net : Net)
| SocketOpened (ws : nat)
| FrameReceived (ws : nat) (data : api.Frame)
| SocketFailed (ws : nat)
| SocketClosed (ws : nat).

(** The change the runtime itself makes before it calls a handler. *)
Definition settle (w : World) (e : Event) : World :=
  match e with
  | SocketOpened ws =>
      mkWorld (app w)
        (update ws (fun s => match readyState s with
                             | CONNECTING => set_readyState OPEN s
                             | _ => s
                             end) (sockets w))
  | SocketClosed ws => mkWorld (app w) (update ws (set_readyState CLOSED) (sockets w))
  | _ => w
  end.

(** The handler the event reaches, if any. *)
Definition dispatch (w : World) (e : Event) : Eff unit :=
  match e with
  | FileChange net files => App.handleFileUpload net (app w) files
  | BatchChange net files => App.handleBatchUpload net (app w) files
  | RecordClick net => App.handleRecordToggle net (app w)
  | LiveClick => App.handleLiveCaptioning (List.length (sockets w)) (app w)
  | Unmount net => App.effectCleanup net (app w)
  | SocketOpened ws =>
      match nth_error (sockets w) ws with
      | Some s =>
          match readyState s with
          | CONNECTING => api.ws_onopen ws (sock_options s)
          | _ => ret tt
          end
      | None => ret tt
      end
  | FrameReceived ws data =>
      if is_open w ws then api.ws_onmessage App.onUpdate data else ret tt
  | SocketFailed ws =>
      match nth_error (sockets w) ws with
      | Some _ => api.ws_onerror
      | None => ret tt
      end
  | SocketClosed _ => ret tt
  end.

Definition step (w : World) (e : Event) : World * list Action :=
  let t := trace (dispatch w e) in
  (run (settle w e) t, t).

Fixpoint steps (w : World) (es : list Event) : World * list Action :=
  match es with
  | [] => (w, [])
  | e :: rest =>
      let (w1, t1) := step w e in
      let (w2, t2) := steps w1 rest in
      (w2, t1 ++ t2)
  end.

End Runtime.

(** The fragments handed to the subscriber, in the order of the calls. *)
Fixpoint deliveries (t : list Action) : list value :=
  match t with
  | [] => []
  | AppendLive fragment :: rest => fragment :: deliveries rest
  | _ :: rest => deliveries rest
  end.

(** The requests sent, in order. *)
Fixpoint requests (t : list Action) : list Request :=
  match t with
  | [] => []
  | Fetch r :: rest => r :: requests rest
  | _ :: rest => requests rest
  end.

Definition net_ok (v : value) : Net := fun _ => Resolves (mkResponse true (inr v)).
Definition net_down : Net := fun _ => Rejects (TypeError "Failed to fetch").

(** ** What the specification calls things *)

(** The [text] field of an incoming frame's parsed payload, [VUndefined]
    when the frame is not JSON or the payload has no such field. *)
Definition text_field (data : api.Frame) : value :=
  match data with
  | api.Parsed (VObj members) => lookup "text" members
  | _ => VUndefined
  end.

(** A frame whose payload has a non-empty [text], and that text. *)
Definition nonempty_text (data : api.Frame) : option string :=
  match text_field data with
  | VStr s => if String.eqb s "" then None else Some s
  | _ => None
  end.

(** The [text] of a payload is a string when it is there (the protocol's
    typing of a fragment, and the parameter type of the subscriber). *)
Definition text_typed (data : api.Frame) : Prop :=
  match text_field data with
  | VStr _ | VUndefined | VNull => True
  | _ => False
  end.

(** Malformed: not JSON, or JSON without a [text] field. *)
Definition malformed (data : api.Frame) : Prop := text_field data = VUndefined.

Fixpoint fragments (frames : list api.Frame) : list string :=
  match frames with
  | [] => []
  | data :: rest =>
      match nonempty_text data with
      | Some s => s :: fragments rest
      | None => fragments rest
      end
  end.

(** A completed result's text: its segments' text joined with newlines. *)
Definition joined_text (r : TranscriptionResult) : string :=
  String.concat LF (map text (segments r)).

(** A batch response: results by file key, in enumeration order. *)
Definition batch_value (rs : list (string * TranscriptionResult)) : value :=
  VObj (map (fun kr => (fst kr, result_value (snd kr))) rs).

Definition fragment (s : string) : api.Frame := api.Parsed (VObj [("text", VStr s)]).

Definition session_value (sid : string) : value := VObj [("sessionId", VStr sid)].

(** A world with one live channel open: the captioning button was pressed
    and the connection got established. *)
Definition liveWorld : Runtime.World :=
  fst (Runtime.steps Runtime.initialWorld [Runtime.LiveClick; Runtime.SocketOpened 0]).

(** The requests the client builds. *)
Definition option_fields (options : TranscriptionOptions) : list (string * FormValue) :=
  [ ("model_size", FormText (types.modelSize options));
    ("input_lang", FormText (inputLanguage options));
    ("output_lang", FormText (outputLanguage options)) ].

Definition transcribe_request (file : File) (options : TranscriptionOptions) : Request :=
  mkRequest (BASE_URL ++ "/transcribe") "POST" []
    (FormData (("file", FormFile file (name file)) ::
               option_fields options ++ [("out_format", FormText (format options))])).

Definition batch_request (files : list File) (options : TranscriptionOptions) : Request :=
  mkRequest (BASE_URL ++ "/transcribe-batch") "POST" []
    (FormData (map (fun file => ("files", FormFile file (name file))) files ++
               option_fields options ++ [("out_format", FormText (format options))])).

Definition start_request (options : TranscriptionOptions) : Request :=
  mkRequest (BASE_URL ++ "/start-recording") "POST" [] (FormData (option_fields options)).

Definition stop_request (sessionId : value) : Request :=
  mkRequest (BASE_URL ++ "/stop-recording") "POST"
    [("Content-Type", "application/json")]
    (JsonText (VObj [("sessionId", sessionId)])).

(** How a request/response call of the client ends, given what the network
    does with its request: [failed] is the message of the error thrown on a
    non-success status. *)
Definition settled (net : Net) (req : Request) (failed : string) : exn + value :=
  match net req with
  | Rejects e => inl e
  | Resolves r => if ok r then json r else inl (Error failed)
  end.

(** The joined text of a settled call's result, when there is one. *)
Definition joined_of (r : exn + value) : exn + string :=
  match r with
  | inl e => inl e
  | inr result => outcome (App.joined_segments result)
  end.

(** What a handler's [try]/[catch] does once the text is known or the
    attempt has failed. *)
Definition completion (setter : string -> Action) (fallback : string) (r : exn + string)
  : list Action :=
  match r with
  | inl err => [SetError (Some (App.message_or err fallback))]
  | inr joined => [setter joined]
  end.

Definition sampleFile : File := mkFile "speech.wav" [].

Definition defaultOptions : TranscriptionOptions :=
  App.getTranscriptionOptions App.initialState.

(** The component after a first successful start: session [s1] is active. *)
Definition activeState : App.AppState :=
  App.exec App.initialState
    (trace (App.handleRecordToggle (net_ok (session_value "s1")) App.initialState)).

(** The live channel of [liveWorld] after fragment [a] arrived and the
    captioning button was pressed again (the stop path). *)
Definition stoppedWorld : Runtime.World :=
  fst (Runtime.steps liveWorld
         [Runtime.FrameReceived 0 (fragment "a"); Runtime.LiveClick]).

(** A socket on which [close()] has taken effect. *)
Definition closing (w : Runtime.World) (ws : nat) : Prop :=
  Runtime.state_of w ws = Some Runtime.CLOSING \/
  Runtime.state_of w ws = Some Runtime.CLOSED.

(** The combined text of a settled batch call, when there is one. *)
Definition combined_of (r : exn + value) : exn + string :=
  match r with
  | inl e => inl e
  | inr results =>
      outcome (values <- App.Object_values results ;;
               parts <- App.mapM_string App.joined_segments values ;;
               ret (String.concat (LF ++ LF) parts))
  end.

(** Every segment of a batch response, in enumeration order. *)
Definition batch_segments (rs : list (string * TranscriptionResult))
  : list TranscriptionSegment :=
  flat_map (fun kr => segments (snd kr)) rs.

Definition said (s : string) : TranscriptionResult :=
  mkResult "en" "en" (mkNumber 1 "1") [mkSegment s (mkNumber 0 "0") (mkNumber 1 "1")] "out.txt".

(** What a run of deliveries adds to the live buffer: a newline and the
    fragment, for each. *)
Fixpoint live_suffix (delivered : list value) : string :=
  match delivered with
  | [] => ""
  | f :: rest => LF ++ ToString f ++ live_suffix rest
  end.

(** Setter calls reach the component state only; the sockets are touched by
    socket actions only. *)
Definition socket_free (a : Action) : bool :=
  match a with
  | NewWebSocket _ _ _ | WsClose _ => false
  | _ => true
  end.

(** ** App.tsx: copy and download *)

Module Share.


(** The anchor element the download handler builds. *)
Record Anchor : Type := mkAnchor { href : string; download : string }.

Inductive UiAction : Type :=
| Setter (a : Action)
| SetCopySuccess (b : bool)
| WriteText (text : string)
| SetTimeout (callback : list UiAction) (delay : nat)
| CreateObjectURL (blobParts : list string) (type : string)
| AppendChild (a : Anchor)
| Click (a : Anchor)
| RemoveChild (a : Anchor)
| RevokeObjectURL (objectUrl : string).

Definition apply (s : App.AppState) (a : UiAction) : App.AppState :=
  match a with
  | Setter x => App.apply s x
  | SetCopySuccess b =>
      App.mkApp (App.selectedTab s) (App.fileTranscription s) (App.micTranscription s)
        (App.batchTranscription s) (App.liveTranscription s) (App.inputLang s)
        (App.outputLang s) (App.modelSize s) (App.isRecording s) (App.isProcessing s)
        (App.currentSessionId s) (App.error s) b
  | _ => s
  end.

Definition exec (s : App.AppState) (t : list UiAction) : App.AppState := fold_left apply t s.








End Share.

(** ** Vocabulary for the further properties *)


(** The four transcript buffers of a state. *)
Definition buffers (s : App.AppState) : string * string * string * string :=
  (App.fileTranscription s, App.micTranscription s,
   App.batchTranscription s, App.liveTranscription s).

(** The state a setter call writes. *)
Inductive Slot : Type :=
| FileBuffer | MicBuffer | BatchBuffer | LiveBuffer
| RecordingFlag | ProcessingFlag | SessionId | ErrorState | NoSlot.

Definition slot_of (a : Action) : Slot :=
  match a with
  | SetFileTranscription _ => FileBuffer
  | SetMicTranscription _ => MicBuffer
  | SetBatchTranscription _ => BatchBuffer
  | AppendLive _ => LiveBuffer
  | SetIsRecording _ => RecordingFlag
  | SetIsProcessing _ => ProcessingFlag
  | SetCurrentSessionId _ => SessionId
  | SetError _ => ErrorState
  | _ => NoSlot
  end.

Definition Slot_eqb (a b : Slot) : bool :=
  match a, b with
  | FileBuffer, FileBuffer | MicBuffer, MicBuffer | BatchBuffer, BatchBuffer
  | LiveBuffer, LiveBuffer | RecordingFlag, RecordingFlag
  | ProcessingFlag, ProcessingFlag | SessionId, SessionId
  | ErrorState, ErrorState | NoSlot, NoSlot => true
  | _, _ => false
  end.

(** No action of the trace writes slot [sl]. *)
Definition spares (sl : Slot) (t : list Action) : bool :=
  forallb (fun a => negb (Slot_eqb (slot_of a) sl)) t.

Definition is_close (a : Action) : bool :=
  match a with
  | WsClose _ => true
  | _ => false
  end.




(** The entries of a form body under one field name. *)
Definition form_entries (field : string) (b : Body) : list FormValue :=
  match b with
  | FormData entries =>
      map snd (filter (fun e => String.eqb (fst e) field) entries)
  | JsonText _ => []
  end.

Definition form_fields (b : Body) : list string :=
  match b with
  | FormData entries => map fst entries
  | JsonText _ => []
  end.

(** The component state once a handler created by the render of [snap] has
    run to its end on the current state [s]. *)
Definition after_file_upload (net : Net) (snap s : App.AppState) (files : option (list File))
  : App.AppState :=
  App.exec s (trace (App.handleFileUpload net snap files)).

Definition after_batch_upload (net : Net) (snap s : App.AppState) (files : option (list File))
  : App.AppState :=
  App.exec s (trace (App.handleBatchUpload net snap files)).

Definition after_record_toggle (net : Net) (snap s : App.AppState) : App.AppState :=
  App.exec s (trace (App.handleRecordToggle net snap)).


(** A stored identifier goes with the recording flag. *)
Definition session_is_recording (s : App.AppState) : Prop :=
  truthy (App.currentSessionId s) = true -> App.isRecording s = true.

Definition is_live_click (e : Runtime.Event) : bool :=
  match e with
  | Runtime.LiveClick => true
  | _ => false
  end.

(** The [text] values of the frames whose payload has a truthy [text], in
    arrival order. *)
Definition truthy_texts (frames : list api.Frame) : list value :=
  filter truthy (map text_field frames).

(** A payload whose [text] is a number. *)
Definition numbered (q : Q) (shown : string) : api.Frame :=
  api.Parsed (VObj [("text", VNum (mkNumber q shown))]).

(** ** Basic facts about computations and the state *)

Import Runtime.

Lemma exec_app s t1 t2 : App.exec s (t1 ++ t2) = App.exec (App.exec s t1) t2.
Proof. apply fold_left_app. Qed.

Lemma world_eta w : mkWorld (app w) (sockets w) = w.
Proof. destruct w; reflexivity. Qed.

Lemma run_socket_free w t :
  forallb socket_free t = true -> run w t = mkWorld (App.exec (app w) t) (sockets w).
Proof.
  revert w. induction t as [|a t IH]; intros w H; simpl in *.
  - symmetry; apply world_eta.
  - apply andb_prop in H as [Ha Ht].
    rewrite IH by exact Ht.
    destruct a; simpl in *; try discriminate; reflexivity.
Qed.

(** The message handler never throws and touches no socket. *)
Lemma ws_onmessage_cases data :
  api.ws_onmessage App.onUpdate data =
    (if truthy (text_field data)
     then ([AppendLive (text_field data)], inr tt)
     else match data with
          | api.Unparsable _ =>
              ([ConsoleError (Some "Error parsing WebSocket message:")
                  (LogExn (SyntaxError "Unexpected token in JSON"))], inr tt)
          | api.Parsed VUndefined =>
              ([ConsoleError (Some "Error parsing WebSocket message:")
                  (LogExn (TypeError "Cannot read properties of undefined (reading 'text')"))],
               inr tt)
          | api.Parsed VNull =>
              ([ConsoleError (Some "Error parsing WebSocket message:")
                  (LogExn (TypeError "Cannot read properties of null (reading 'text')"))],
               inr tt)
          | _ => ([], inr tt)
          end).
Proof.
  destruct data as [raw | v]; [reflexivity|].
  destruct v; try reflexivity.
  unfold api.ws_onmessage, text_field; simpl.
  destruct (truthy (lookup "text" members)); reflexivity.
Qed.

Lemma ws_onmessage_socket_free data :
  forallb socket_free (trace (api.ws_onmessage App.onUpdate data)) = true.
Proof.
  rewrite ws_onmessage_cases.
  destruct (truthy (text_field data)); [reflexivity|].
  destruct data as [raw | v]; [reflexivity|]. destruct v; reflexivity.
Qed.

Lemma frame_step_open w ws data :
  is_open w ws = true ->
  step w (FrameReceived ws data) =
    (mkWorld (App.exec (app w) (trace (api.ws_onmessage App.onUpdate data))) (sockets w),
     trace (api.ws_onmessage App.onUpdate data)).
Proof.
  intros Hopen. unfold step; simpl. rewrite Hopen.
  rewrite run_socket_free by apply ws_onmessage_socket_free. reflexivity.
Qed.

Lemma frame_step_not_open w ws data :
  is_open w ws = false -> step w (FrameReceived ws data) = (w, []).
Proof.
  intros Hclosed. unfold step; simpl. rewrite Hclosed. reflexivity.
Qed.

Lemma deliveries_app t1 t2 : deliveries (t1 ++ t2) = deliveries t1 ++ deliveries t2.
Proof.
  induction t1 as [|a t1 IH]; simpl; [reflexivity|].
  destruct a; simpl; rewrite ?IH; reflexivity.
Qed.

(** One frame: delivered exactly when its text is truthy. *)
Lemma deliveries_of_any_frame data :
  deliveries (trace (api.ws_onmessage App.onUpdate data)) =
    if truthy (text_field data) then [text_field data] else [].
Proof.
  rewrite ws_onmessage_cases.
  destruct (truthy (text_field data)); [reflexivity|].
  destruct data as [raw | v]; [reflexivity|]. destruct v; reflexivity.
Qed.

(** For a text that is a string when it is there, truthy means non-empty. *)
Lemma truthy_text_typed data :
  text_typed data ->
  (if truthy (text_field data) then [text_field data] else []) =
    match nonempty_text data with
    | Some s => [VStr s]
    | None => []
    end.
Proof.
  unfold text_typed, nonempty_text.
  destruct (text_field data); try contradiction; intros _; try reflexivity.
  cbn [truthy]. destruct (String.eqb s ""); reflexivity.
Qed.

Lemma truthy_texts_typed frames :
  Forall text_typed frames -> truthy_texts frames = map VStr (fragments frames).
Proof.
  unfold truthy_texts. induction 1 as [|data rest Hd _ IH]; [reflexivity|].
  cbn [map filter fragments]. rewrite IH.
  pose proof (truthy_text_typed data Hd) as H.
  destruct (truthy (text_field data)), (nonempty_text data);
    try discriminate; try reflexivity.
  injection H as ->. reflexivity.
Qed.

Lemma malformed_frame_trace data :
  malformed data ->
  deliveries (trace (api.ws_onmessage App.onUpdate data)) = [] /\
  forall st, App.exec st (trace (api.ws_onmessage App.onUpdate data)) = st.
Proof.
  unfold malformed. intros Hbad. rewrite ws_onmessage_cases, Hbad. simpl.
  destruct data as [raw | v];
    [split; [reflexivity | intros st; destruct st; reflexivity]|].
  destruct v; (split; [reflexivity | intros st; destruct st; reflexivity]).
Qed.

Lemma fragment_frame_trace s :
  s <> "" -> trace (api.ws_onmessage App.onUpdate (fragment s)) = [AppendLive (VStr s)].
Proof.
  intros Hs. rewrite ws_onmessage_cases. unfold fragment, text_field; simpl.
  destruct (String.eqb_spec s ""); [contradiction | reflexivity].
Qed.

(** ** The live channel *)

(** C3 (as amended).  On an open live channel, for every sequence of
    incoming frames, the subscriber is called with exactly the [text] values
    that are truthy, in arrival order: one call per frame whose payload has a
    truthy [text], none for the others.  When the [text] of every frame is a
    string where it is there, these are exactly the non-empty texts, the
    [fragments] of the sequence. *)
Theorem C3_deliveries_are_truthy_texts_in_order :
  forall (w : World) (ws : nat) (frames : list api.Frame),
    is_open w ws = true ->
    deliveries (snd (steps w (map (FrameReceived ws) frames))) = truthy_texts frames /\
    (Forall text_typed frames ->
     deliveries (snd (steps w (map (FrameReceived ws) frames)))
       = map VStr (fragments frames)).
Proof.
  intros w ws frames Hopen.
  assert (Hall : deliveries (snd (steps w (map (FrameReceived ws) frames)))
                 = truthy_texts frames).
  { revert w Hopen. unfold truthy_texts.
    induction frames as [|data rest IH]; intros w Hopen; [reflexivity|].
    cbn [map steps filter]. rewrite (frame_step_open _ _ _ Hopen).
    specialize (IH (mkWorld (App.exec (app w) (trace (api.ws_onmessage App.onUpdate data)))
                      (sockets w)) Hopen).
    destruct (steps _ (map (FrameReceived ws) rest)) as [w2 t2]. cbn [fst snd] in *.
    rewrite deliveries_app, IH, deliveries_of_any_frame.
    destruct (truthy (text_field data)); reflexivity. }
  split; [exact Hall|].
  intros Hty. rewrite Hall. apply truthy_texts_typed, Hty.
Qed.

(** The three frames of the specification: [a], empty, [b] give the two
    deliveries [a] then [b]. *)
Lemma C3_a_empty_b :
  is_open liveWorld 0 = true /\
  Forall text_typed [fragment "a"; fragment ""; fragment "b"] /\
  deliveries (snd (steps liveWorld
                     (map (FrameReceived 0) [fragment "a"; fragment ""; fragment "b"])))
    = [VStr "a"; VStr "b"].
Proof.
  split; [reflexivity|]. split; [repeat constructor|].
  apply (proj2 (C3_deliveries_are_truthy_texts_in_order liveWorld 0
                  [fragment "a"; fragment ""; fragment "b"] eq_refl)).
  repeat constructor.
Defined.

(** C3 as stated fails on a [text] that is not a string: the number 5 is
    no non-empty text, yet it is delivered; the number 0 is a [text] that is
    there and is not the empty string, yet it is dropped. *)
Lemma C3_number_five_is_delivered_zero_is_dropped :
  is_open liveWorld 0 = true /\
  fragments [numbered 5 "5"] = [] /\
  deliveries (snd (steps liveWorld (map (FrameReceived 0) [numbered 5 "5"])))
    = [VNum (mkNumber 5 "5")] /\
  deliveries (snd (steps liveWorld (map (FrameReceived 0) [numbered 5 "5"])))
    <> map VStr (fragments [numbered 5 "5"]) /\
  text_field (numbered 0 "0") = VNum (mkNumber 0 "0") /\
  deliveries (snd (steps liveWorld (map (FrameReceived 0) [numbered 0 "0"]))) = [].
Proof.
  split; [reflexivity|]. split; [reflexivity|]. split; [reflexivity|].
  split; [discriminate|]. split; reflexivity.
Qed.

(** C4.  A malformed frame (not JSON, or JSON without a [text] field)
    arriving on an open live channel is dropped: nothing is delivered, the
    world is what it was (so the live buffer is unchanged and the channel is
    still open), and a fragment that arrives next is delivered as usual. *)
Theorem C4_malformed_frame_is_dropped :
  forall (w : World) (ws : nat) (data : api.Frame),
    is_open w ws = true ->
    malformed data ->
    fst (step w (FrameReceived ws data)) = w /\
    deliveries (snd (step w (FrameReceived ws data))) = [] /\
    App.liveTranscription (app (fst (step w (FrameReceived ws data))))
      = App.liveTranscription (app w) /\
    is_open (fst (step w (FrameReceived ws data))) ws = true /\
    forall s, s <> "" ->
      deliveries (snd (steps w [FrameReceived ws data; FrameReceived ws (fragment s)]))
        = [VStr s].
Proof.
  intros w ws data Hopen Hbad.
  destruct (malformed_frame_trace data Hbad) as [Hnone Hsame].
  assert (Hw : fst (step w (FrameReceived ws data)) = w).
  { rewrite (frame_step_open _ _ _ Hopen). simpl. rewrite Hsame. apply world_eta. }
  assert (Hd : deliveries (snd (step w (FrameReceived ws data))) = []).
  { rewrite (frame_step_open _ _ _ Hopen). exact Hnone. }
  split; [exact Hw|]. split; [exact Hd|].
  split; [rewrite Hw; reflexivity|]. split; [rewrite Hw; exact Hopen|].
  intros s Hs. cbn [steps].
  destruct (step w (FrameReceived ws data)) as [w1 t1] eqn:E1. simpl in Hw, Hd. subst w1.
  rewrite (frame_step_open _ _ _ Hopen). simpl.
  rewrite app_nil_r, deliveries_app, Hd, (fragment_frame_trace s Hs). reflexivity.
Qed.

Lemma C4_not_json_frame :
  is_open liveWorld 0 = true /\
  malformed (api.Unparsable "not json") /\
  fst (step liveWorld (FrameReceived 0 (api.Unparsable "not json"))) = liveWorld.
Proof.
  split; [reflexivity|]. split; [reflexivity|].
  exact (proj1 (C4_malformed_frame_is_dropped liveWorld 0 (api.Unparsable "not json")
                  eq_refl eq_refl)).
Defined.

Lemma string_app_assoc (a b c : string) : ((a ++ b) ++ c = a ++ (b ++ c))%string.
Proof. induction a as [|ch a IH]; simpl; [reflexivity | rewrite IH; reflexivity]. Qed.

Lemma string_app_empty (a : string) : (a ++ "" = a)%string.
Proof. induction a as [|ch a IH]; simpl; [reflexivity | rewrite IH; reflexivity]. Qed.

Lemma live_exec t : forall s,
  App.liveTranscription (App.exec s t)
    = (App.liveTranscription s ++ live_suffix (deliveries t))%string.
Proof.
  induction t as [|a t IH]; intros s.
  - simpl. symmetry. apply string_app_empty.
  - cbn [App.exec fold_left]. fold (App.exec (App.apply s a) t). rewrite IH.
    destruct a; try reflexivity.
    cbn [App.apply App.liveTranscription deliveries live_suffix].
    rewrite !string_app_assoc. reflexivity.
Qed.

Lemma frames_steps_exec frames : forall w ws,
  is_open w ws = true ->
  fst (steps w (map (FrameReceived ws) frames))
    = mkWorld (App.exec (app w) (snd (steps w (map (FrameReceived ws) frames)))) (sockets w).
Proof.
  induction frames as [|data rest IH]; intros w ws Hopen.
  - simpl. symmetry. apply world_eta.
  - cbn [map steps]. rewrite (frame_step_open _ _ _ Hopen).
    specialize (IH (mkWorld (App.exec (app w) (trace (api.ws_onmessage App.onUpdate data)))
                      (sockets w)) ws Hopen).
    destruct (steps _ (map (FrameReceived ws) rest)) as [w2 t2]. cbn [fst snd app sockets] in *.
    rewrite IH, exec_app. reflexivity.
Qed.

(** C9.  With an empty live buffer, the subscriber called with text [t]
    leaves the buffer equal to a newline followed by [t]; so does a frame
    carrying the non-empty text [t] that arrives on an open channel.  And
    whatever frames arrive, a live buffer that started empty is empty or
    begins with a newline: it is the deliveries, each after a newline. *)
Theorem C9_first_fragment_follows_a_newline :
  forall (s : App.AppState) (t : string),
    App.liveTranscription s = "" ->
    App.liveTranscription (App.exec s (trace (App.onUpdate (VStr t)))) = (LF ++ t)%string /\
    (forall w ws,
       app w = s -> is_open w ws = true -> t <> "" ->
       App.liveTranscription (app (fst (step w (FrameReceived ws (fragment t)))))
         = (LF ++ t)%string) /\
    (forall w ws frames,
       app w = s -> is_open w ws = true ->
       App.liveTranscription (app (fst (steps w (map (FrameReceived ws) frames))))
         = live_suffix (deliveries (snd (steps w (map (FrameReceived ws) frames)))) /\
       (App.liveTranscription (app (fst (steps w (map (FrameReceived ws) frames)))) = "" \/
        exists rest,
          App.liveTranscription (app (fst (steps w (map (FrameReceived ws) frames))))
            = (LF ++ rest)%string)).
Proof.
  intros s t Hempty. split; [|split].
  - simpl. rewrite Hempty. reflexivity.
  - intros w ws Hs Hopen Ht.
    rewrite (frame_step_open _ _ _ Hopen), (fragment_frame_trace t Ht). simpl.
    rewrite Hs, Hempty. reflexivity.
  - intros w ws frames Hs Hopen.
    rewrite (frames_steps_exec frames w ws Hopen). cbn [app].
    rewrite live_exec, Hs, Hempty. cbn [String.append].
    split; [reflexivity|].
    destruct (deliveries _) as [|f rest]; [left; reflexivity|].
    right. exists (ToString f ++ live_suffix rest)%string. reflexivity.
Qed.

Lemma C9_first_fragment_hello :
  App.liveTranscription App.initialState = "" /\
  App.liveTranscription (App.exec App.initialState (trace (App.onUpdate (VStr "hello"))))
    = (LF ++ "hello")%string.
Proof.
  split; [reflexivity|].
  exact (proj1 (C9_first_fragment_follows_a_newline App.initialState "hello" eq_refl)).
Defined.

(** ** Uploads *)

(** C10.  With no file selected ([files] null or empty) the file-upload and
    the batch-upload handlers perform no action at all: no request, no
    setter call; the world after the event is the world before it. *)
Theorem C10_no_file_no_effect :
  forall (net : Net) (w : World),
    App.handleFileUpload net (app w) None = ret tt /\
    App.handleFileUpload net (app w) (Some []) = ret tt /\
    App.handleBatchUpload net (app w) None = ret tt /\
    App.handleBatchUpload net (app w) (Some []) = ret tt /\
    step w (FileChange net None) = (w, []) /\
    step w (FileChange net (Some [])) = (w, []) /\
    step w (BatchChange net None) = (w, []) /\
    step w (BatchChange net (Some [])) = (w, []).
Proof.
  intros net w. repeat split; reflexivity.
Qed.

(** ** The request client *)

Lemma transcribeFile_spec net file options :
  api.transcribeFile net file options =
    ([Fetch (transcribe_request file options)],
     settled net (transcribe_request file options) "Transcription failed").
Proof.
  unfold api.transcribeFile, settled, fetch.
  change (mkRequest (BASE_URL ++ "/transcribe") "POST" [] _)
    with (transcribe_request file options).
  destruct (net (transcribe_request file options)) as [e | [o [e | v]]];
    try destruct o; reflexivity.
Qed.

Lemma transcribeBatch_spec net files options :
  api.transcribeBatch net files options =
    ([Fetch (batch_request files options)],
     settled net (batch_request files options) "Batch transcription failed").
Proof.
  unfold api.transcribeBatch, settled, fetch.
  change (mkRequest (BASE_URL ++ "/transcribe-batch") "POST" [] _)
    with (batch_request files options).
  destruct (net (batch_request files options)) as [e | [o [e | v]]];
    try destruct o; reflexivity.
Qed.

Lemma stopRecording_spec net sessionId :
  api.stopRecording net sessionId =
    ([Fetch (stop_request sessionId)],
     settled net (stop_request sessionId) "Failed to stop recording").
Proof.
  unfold api.stopRecording, settled, fetch.
  change (mkRequest (BASE_URL ++ "/stop-recording") "POST" _ _)
    with (stop_request sessionId).
  destruct (net (stop_request sessionId)) as [e | [o [e | v]]];
    try destruct o; reflexivity.
Qed.

Lemma startRecording_spec net options :
  api.startRecording net options =
    ([Fetch (start_request options)],
     match settled net (start_request options) "Failed to start recording" with
     | inl e => inl e
     | inr data => get_prop data "sessionId"
     end).
Proof.
  unfold api.startRecording, settled, fetch.
  change (mkRequest (BASE_URL ++ "/start-recording") "POST" [] _)
    with (start_request options).
  destruct (net (start_request options)) as [e | [o [e | v]]];
    try destruct o; reflexivity.
Qed.

Lemma as_segments_values l : as_segments (map segment_value l) = Some l.
Proof.
  induction l as [|s l IH]; [reflexivity|].
  cbn [map as_segments]. rewrite IH. destruct s; reflexivity.
Qed.

Lemma as_TranscriptionResult_value r : as_TranscriptionResult (result_value r) = Some r.
Proof.
  destruct r as [il ol p ss f]. unfold result_value, as_TranscriptionResult.
  cbn [original_language output_language language_probability segments output_file].
  cbn [lookup String.eqb Ascii.eqb Bool.eqb as_string as_number].
  rewrite as_segments_values. reflexivity.
Qed.

(** C7 (as amended).  [transcribeFile] sends exactly one request and does
    nothing else.  It fails with the rejection of [fetch] when the network
    fails and with [Error "Transcription failed"] on a non-success status;
    it fails with the rejection of [response.json()] when the body is not
    JSON; any body that is JSON is returned as it is, unchecked.  When the
    service answers with a [TranscriptionResult], the value returned decodes
    to that result: same segments, same order, so segments that come in
    non-decreasing [start] order stay so. *)
Theorem C7_transcribeFile_one_request_result_passed_through :
  forall (net : Net) (file : File) (options : TranscriptionOptions),
    let req := transcribe_request file options in
    let call := api.transcribeFile net file options in
    trace call = [Fetch req] /\
    requests (trace call) = [req] /\
    (forall e, net req = Rejects e -> outcome call = inl e) /\
    (forall r, net req = Resolves r -> ok r = false ->
               outcome call = inl (Error "Transcription failed")) /\
    (forall r e, net req = Resolves r -> ok r = true -> json r = inl e ->
                 outcome call = inl e) /\
    (forall r v, net req = Resolves r -> ok r = true -> json r = inr v ->
                 outcome call = inr v) /\
    (forall r R, net req = Resolves r -> ok r = true -> json r = inr (result_value R) ->
                 outcome call = inr (result_value R) /\
                 option_map segments (as_TranscriptionResult (result_value R))
                   = Some (segments R) /\
                 (start_ordered (segments R) ->
                  exists R', as_TranscriptionResult (result_value R) = Some R' /\
                             start_ordered (segments R'))).
Proof.
  intros net file options req call. subst req call.
  rewrite transcribeFile_spec. unfold settled. cbn [trace outcome fst snd requests].
  repeat split; try reflexivity.
  - intros e ->. reflexivity.
  - intros r -> ->. reflexivity.
  - intros r e -> -> ->. reflexivity.
  - intros r v -> -> ->. reflexivity.
  - rewrite H, H0, H1. reflexivity.
  - rewrite as_TranscriptionResult_value. reflexivity.
  - intros Hord. exists R. split; [apply as_TranscriptionResult_value | exact Hord].
Qed.

Lemma C7_result_passed_through :
  net_ok (result_value (mkResult "en" "en" (mkNumber 1 "1") [] "out.txt"))
    (transcribe_request sampleFile defaultOptions)
    = Resolves (mkResponse true
                  (inr (result_value (mkResult "en" "en" (mkNumber 1 "1") [] "out.txt")))) /\
  outcome (api.transcribeFile
             (net_ok (result_value (mkResult "en" "en" (mkNumber 1 "1") [] "out.txt")))
             sampleFile defaultOptions)
    = inr (result_value (mkResult "en" "en" (mkNumber 1 "1") [] "out.txt")).
Proof.
  split; [reflexivity|].
  apply (proj1 (proj2 (proj2 (proj2 (proj2 (proj2 (proj2
           (C7_transcribeFile_one_request_result_passed_through
              (net_ok (result_value (mkResult "en" "en" (mkNumber 1 "1") [] "out.txt")))
              sampleFile defaultOptions))))))
           (mkResponse true
              (inr (result_value (mkResult "en" "en" (mkNumber 1 "1") [] "out.txt"))))
           (mkResult "en" "en" (mkNumber 1 "1") [] "out.txt")
           eq_refl eq_refl eq_refl)).
Defined.

(** C7 as stated fails: a body that is JSON but not a [TranscriptionResult]
    (here the empty object) does not make [transcribeFile] fail; it is
    returned. *)
Lemma C7_unchecked_body_is_returned :
  as_TranscriptionResult (VObj []) = None /\
  outcome (api.transcribeFile (net_ok (VObj [])) sampleFile defaultOptions) = inr (VObj []).
Proof. split; reflexivity. Qed.

(** ** Handlers, computed *)

Lemma mapM_text_trace l :
  trace (App.mapM (fun segment => lift (get_prop segment "text")) l) = [].
Proof.
  induction l as [|x l IH]; [reflexivity|].
  cbn [App.mapM]. unfold lift at 1.
  destruct (get_prop x "text") as [e | y]; [reflexivity|].
  cbn [bind]. destruct (App.mapM _ l) as [t [e | ys]]; simpl in *; subst; reflexivity.
Qed.

Lemma joined_segments_trace result : trace (App.joined_segments result) = [].
Proof.
  unfold App.joined_segments, lift.
  destruct (get_prop result "segments") as [e | segs]; [reflexivity|].
  cbn [bind].
  destruct segs; try reflexivity.
  cbn [App.Array_map].
  pose proof (mapM_text_trace elements) as Ht.
  destruct (App.mapM _ elements) as [t [e | ys]]; simpl in *; subst; reflexivity.
Qed.

Lemma joined_segments_eta result :
  App.joined_segments result = ([], outcome (App.joined_segments result)).
Proof.
  pose proof (joined_segments_trace result) as Ht.
  destruct (App.joined_segments result) as [t r]. simpl in *. subst. reflexivity.
Qed.

Lemma handleFileUpload_computed net snap file rest :
  App.handleFileUpload net snap (Some (file :: rest)) =
    ([SetIsProcessing true; SetError None;
      Fetch (transcribe_request file (App.getTranscriptionOptions snap))] ++
     completion SetFileTranscription "Failed to process file"
       (joined_of (settled net (transcribe_request file (App.getTranscriptionOptions snap))
                     "Transcription failed")) ++
     [SetIsProcessing false], inr tt).
Proof.
  unfold App.handleFileUpload. cbn [App.first_file].
  rewrite transcribeFile_spec.
  destruct (settled net _ "Transcription failed") as [e | result]; [reflexivity|].
  cbn [joined_of]. unfold emit. cbn [bind app].
  rewrite (joined_segments_eta result).
  destruct (outcome (App.joined_segments result)) as [e | joined]; reflexivity.
Qed.

Lemma handleRecordToggle_stop net snap :
  App.isRecording snap = true ->
  App.handleRecordToggle net snap =
    ((if truthy (App.currentSessionId snap)
      then Fetch (stop_request (App.currentSessionId snap)) ::
           completion SetMicTranscription "Failed to stop recording"
             (joined_of (settled net (stop_request (App.currentSessionId snap))
                           "Failed to stop recording"))
      else []) ++
     [SetIsRecording false; SetCurrentSessionId VNull], inr tt).
Proof.
  intros Hrec. unfold App.handleRecordToggle. rewrite Hrec.
  destruct (truthy (App.currentSessionId snap)); [|reflexivity].
  rewrite stopRecording_spec.
  destruct (settled net _ "Failed to stop recording") as [e | result]; [reflexivity|].
  cbn [joined_of]. unfold emit. cbn [bind app].
  rewrite (joined_segments_eta result).
  destruct (outcome (App.joined_segments result)) as [e | joined]; reflexivity.
Qed.

Lemma handleRecordToggle_start net snap :
  App.isRecording snap = false ->
  App.handleRecordToggle net snap =
    (Fetch (start_request (App.getTranscriptionOptions snap)) ::
     match outcome (api.startRecording net (App.getTranscriptionOptions snap)) with
     | inl err => [SetError (Some (App.message_or err "Failed to start recording"))]
     | inr sessionId => [SetCurrentSessionId sessionId; SetIsRecording true; SetError None]
     end, inr tt).
Proof.
  intros Hrec. unfold App.handleRecordToggle. rewrite Hrec.
  rewrite startRecording_spec. cbn [outcome snd].
  destruct (settled net _ "Failed to start recording") as [e | data]; [reflexivity|].
  destruct (get_prop data "sessionId"); reflexivity.
Qed.

Lemma effectCleanup_computed net snap :
  App.effectCleanup net snap =
    (if truthy (App.currentSessionId snap)
     then Fetch (stop_request (App.currentSessionId snap)) ::
          match settled net (stop_request (App.currentSessionId snap))
                  "Failed to stop recording" with
          | inl err => [ConsoleError None (LogExn err)]
          | inr _ => []
          end
     else [], inr tt).
Proof.
  unfold App.effectCleanup.
  destruct (truthy (App.currentSessionId snap)); [|reflexivity].
  rewrite stopRecording_spec.
  destruct (settled net _ "Failed to stop recording"); reflexivity.
Qed.

Lemma handleLiveCaptioning_computed ws snap :
  App.handleLiveCaptioning ws snap =
    (if App.isRecording snap
     then [SetIsRecording false]
     else [SetIsRecording true; SetError None;
           NewWebSocket ws api.wsUrl (App.getTranscriptionOptions snap)], inr tt).
Proof.
  unfold App.handleLiveCaptioning. destruct (App.isRecording snap); reflexivity.
Qed.

Lemma exec_fields s t :
  App.selectedTab (App.exec s t) = App.selectedTab s /\
  App.inputLang (App.exec s t) = App.inputLang s /\
  App.outputLang (App.exec s t) = App.outputLang s /\
  App.modelSize (App.exec s t) = App.modelSize s /\
  App.copySuccess (App.exec s t) = App.copySuccess s.
Proof.
  revert s. induction t as [|a t IH]; intros s; [repeat split|].
  cbn [App.exec fold_left]. fold (App.exec (App.apply s a) t).
  destruct (IH (App.apply s a)) as (H1 & H2 & H3 & H4 & H5).
  rewrite H1, H2, H3, H4, H5. destruct a; repeat split.
Qed.

(** ** The recording session *)

Lemma requests_app t1 t2 : requests (t1 ++ t2) = requests t1 ++ requests t2.
Proof.
  induction t1 as [|a t1 IH]; simpl; [reflexivity|].
  destruct a; simpl; rewrite ?IH; reflexivity.
Qed.

Lemma requests_completion setter fallback r :
  (forall x, requests [setter x] = []) -> requests (completion setter fallback r) = [].
Proof. intros Hs. destruct r; [reflexivity | apply Hs]. Qed.

Lemma stop_requests net snap :
  App.isRecording snap = true ->
  requests (trace (App.handleRecordToggle net snap)) =
    if truthy (App.currentSessionId snap)
    then [stop_request (App.currentSessionId snap)]
    else [].
Proof.
  intros Hrec. rewrite (handleRecordToggle_stop _ _ Hrec). cbn [trace fst].
  rewrite requests_app.
  destruct (truthy (App.currentSessionId snap)); [|reflexivity].
  cbn [requests]. rewrite requests_completion by reflexivity. reflexivity.
Qed.

Lemma stop_resets net snap s :
  App.isRecording snap = true ->
  App.currentSessionId (App.exec s (trace (App.handleRecordToggle net snap))) = VNull /\
  App.isRecording (App.exec s (trace (App.handleRecordToggle net snap))) = false.
Proof.
  intros Hrec. rewrite (handleRecordToggle_stop _ _ Hrec). cbn [trace fst].
  rewrite exec_app. split; reflexivity.
Qed.

(** C6.  When the record toggle runs its stop branch, then whatever the
    network does with the stop request (success, non-success status, network
    failure, undecodable or ill-shaped body), after the handler the stored
    session identifier is null and the recording flag is false; the stop
    request carries the identifier that was stored. *)
Theorem C6_stop_discards_session_either_way :
  forall (net : Net) (snap s : App.AppState),
    App.isRecording snap = true ->
    App.currentSessionId (App.exec s (trace (App.handleRecordToggle net snap))) = VNull /\
    App.isRecording (App.exec s (trace (App.handleRecordToggle net snap))) = false /\
    (truthy (App.currentSessionId snap) = true ->
     requests (trace (App.handleRecordToggle net snap))
       = [stop_request (App.currentSessionId snap)]).
Proof.
  intros net snap s Hrec.
  destruct (stop_resets net snap s Hrec) as [Hid Hflag].
  split; [exact Hid|]. split; [exact Hflag|].
  intros Hid'. rewrite (stop_requests _ _ Hrec), Hid'. reflexivity.
Qed.

Lemma C6_stop_fails_session_gone :
  App.isRecording activeState = true /\
  App.currentSessionId
    (App.exec activeState (trace (App.handleRecordToggle net_down activeState))) = VNull /\
  App.isRecording
    (App.exec activeState (trace (App.handleRecordToggle net_down activeState))) = false.
Proof.
  split; [reflexivity|].
  pose proof (C6_stop_discards_session_either_way net_down activeState activeState eq_refl)
    as [Hid [Hflag _]].
  split; [exact Hid | exact Hflag].
Defined.



(** C1 (as amended).  The client has no refusal of a start: how
    [api.startRecording] ends depends on the network's answer only.  The
    record toggle, run on a render where the recording flag is set, takes
    the stop branch and sends no start request.  After that stop has
    completed the component is idle (flag false, identifier null), and the
    next toggle sends exactly one start request; when that start is answered
    with a session identifier, the identifier is stored, the flag is set and
    the error is cleared. *)
Theorem C1_toggle_start_after_stop :
  forall (net net' : Net) (snap s : App.AppState),
    (forall options,
       outcome (api.startRecording net options) =
         match settled net (start_request options) "Failed to start recording" with
         | inl e => inl e
         | inr data => get_prop data "sessionId"
         end) /\
    (App.isRecording snap = true ->
     requests (trace (App.handleRecordToggle net snap)) =
       (if truthy (App.currentSessionId snap)
        then [stop_request (App.currentSessionId snap)]
        else []) /\
     forall idle sessionId,
       idle = App.exec s (trace (App.handleRecordToggle net snap)) ->
       outcome (api.startRecording net' (App.getTranscriptionOptions idle)) = inr sessionId ->
       App.isRecording idle = false /\
       App.currentSessionId idle = VNull /\
       requests (trace (App.handleRecordToggle net' idle))
         = [start_request (App.getTranscriptionOptions idle)] /\
       App.isRecording (App.exec idle (trace (App.handleRecordToggle net' idle))) = true /\
       App.currentSessionId (App.exec idle (trace (App.handleRecordToggle net' idle)))
         = sessionId /\
       App.error (App.exec idle (trace (App.handleRecordToggle net' idle))) = None).
Proof.
  intros net net' snap s. split.
  - intros options. rewrite startRecording_spec. reflexivity.
  - intros Hrec. split; [apply (stop_requests _ _ Hrec)|].
    intros idle sessionId -> Hstart.
    destruct (stop_resets net snap s Hrec) as [Hid Hflag].
    split; [exact Hflag|]. split; [exact Hid|].
    rewrite (handleRecordToggle_start _ _ Hflag), Hstart. cbn [trace fst].
    repeat split.
Qed.

Lemma C1_stop_then_start_again :
  App.isRecording activeState = true /\
  App.isRecording
    (App.exec
       (App.exec activeState (trace (App.handleRecordToggle net_down activeState)))
       (trace (App.handleRecordToggle (net_ok (session_value "s2"))
                 (App.exec activeState
                    (trace (App.handleRecordToggle net_down activeState)))))) = true.
Proof.
  split; [reflexivity|].
  exact (proj1 (proj2 (proj2 (proj2
           (proj2 (proj2 (C1_toggle_start_after_stop net_down (net_ok (session_value "s2"))
                            activeState activeState) eq_refl)
              _ (VStr "s2") eq_refl eq_refl))))).
Defined.

(** C1 as stated fails: with session [s1] active, a second start is not
    refused.  Called directly, [api.startRecording] succeeds; and a second
    run of the toggle created by the same render as the first (the flag it
    reads is still false) sends a second start and overwrites the stored
    identifier, with no error reported. *)
Lemma C1_second_start_is_not_refused :
  App.isRecording activeState = true /\
  App.currentSessionId activeState = VStr "s1" /\
  outcome (api.startRecording (net_ok (session_value "s2"))
             (App.getTranscriptionOptions activeState)) = inr (VStr "s2") /\
  requests (trace (App.handleRecordToggle (net_ok (session_value "s2")) App.initialState))
    = [start_request defaultOptions] /\
  App.currentSessionId
    (App.exec activeState
       (trace (App.handleRecordToggle (net_ok (session_value "s2")) App.initialState)))
    = VStr "s2" /\
  App.error
    (App.exec activeState
       (trace (App.handleRecordToggle (net_ok (session_value "s2")) App.initialState)))
    = None.
Proof. repeat split. Qed.

(** ** The live-captioning toggle *)

Lemma live_stop_path_sends_no_close ws snap :
  App.isRecording snap = true ->
  trace (App.handleLiveCaptioning ws snap) = [SetIsRecording false].
Proof. intros Hrec. rewrite handleLiveCaptioning_computed, Hrec. reflexivity. Qed.

(** C2.  The stop path of the live-captioning toggle does not reach the
    cancel function: pressed while captioning, the button clears the
    recording flag and leaves the socket open, and the next fragment from the
    remote side is still handed to the subscriber and appended to the live
    buffer. *)
Theorem C2_stop_path_keeps_delivering :
  App.isRecording (app (fst (steps liveWorld [FrameReceived 0 (fragment "a")]))) = true /\
  snd (step (fst (steps liveWorld [FrameReceived 0 (fragment "a")])) LiveClick)
    = [SetIsRecording false] /\
  App.isRecording (app stoppedWorld) = false /\
  state_of stoppedWorld 0 = Some OPEN /\
  deliveries (snd (step stoppedWorld (FrameReceived 0 (fragment "b")))) = [VStr "b"] /\
  App.liveTranscription (app stoppedWorld) = (LF ++ "a")%string /\
  App.liveTranscription (app (fst (step stoppedWorld (FrameReceived 0 (fragment "b")))))
    = (LF ++ "a" ++ LF ++ "b")%string.
Proof. repeat split. Qed.

Lemma nth_error_update f : forall l n m,
  nth_error (update n f l) m =
    if Nat.eqb n m then option_map f (nth_error l m) else nth_error l m.
Proof.
  induction l as [|s l IH]; intros n m.
  - destruct (Nat.eqb n m) eqn:E; destruct n, m; reflexivity.
  - destruct n, m; simpl; try reflexivity. apply IH.
Qed.

Lemma closing_perform w ws a : closing w ws -> closing (perform w a) ws.
Proof.
  unfold closing, state_of. intros H.
  destruct (nth_error (sockets w) ws) as [s|] eqn:Hs;
    [|destruct H; discriminate].
  destruct a; try (cbn [perform sockets]; rewrite Hs; exact H).
  - cbn [perform sockets]. rewrite nth_error_app1, Hs; [exact H|].
    apply nth_error_Some. rewrite Hs. discriminate.
  - cbn [perform sockets]. rewrite nth_error_update, Hs.
    destruct (Nat.eqb ws0 ws); [|exact H].
    simpl in *. unfold close.
    destruct H as [H | H]; injection H as H; rewrite H; simpl; rewrite H; auto.
Qed.

Lemma closing_run t : forall w ws, closing w ws -> closing (run w t) ws.
Proof.
  induction t as [|a t IH]; intros w ws H; [exact H|].
  cbn [run fold_left]. apply IH, closing_perform, H.
Qed.

Lemma closing_settle w ws e : closing w ws -> closing (settle w e) ws.
Proof.
  unfold closing, state_of. intros H.
  destruct (nth_error (sockets w) ws) as [s|] eqn:Hs;
    [|destruct H; discriminate].
  destruct e; try (cbn [settle]; rewrite Hs; exact H);
    cbn [settle sockets]; rewrite nth_error_update, Hs;
    (destruct (Nat.eqb ws0 ws); [|exact H]); simpl in *.
  - destruct H as [H | H]; injection H as H; rewrite H; simpl; rewrite H; auto.
  - right. reflexivity.
Qed.

Lemma closing_steps es : forall w ws, closing w ws -> closing (fst (steps w es)) ws.
Proof.
  induction es as [|e es IH]; intros w ws H; [exact H|].
  cbn [steps]. unfold step at 1.
  specialize (IH (run (settle w e) (trace (dispatch w e))) ws
                (closing_run _ _ _ (closing_settle _ _ e H))).
  destruct (steps _ es). exact IH.
Qed.

(** The cancel function itself works: once the cleanup that
    [startLiveCaptioning] returned for socket [ws] has run, no frame of that
    socket reaches the subscriber any more, whatever happens in between. *)
Lemma cancel_ends_deliveries w ws options cancel s :
  nth_error (sockets w) ws = Some s ->
  outcome (api.startLiveCaptioning ws options App.onUpdate) = inr cancel ->
  forall es data,
    step (fst (steps (run w (trace cancel)) es)) (FrameReceived ws data)
      = (fst (steps (run w (trace cancel)) es), []).
Proof.
  intros Hs Hcancel es data. injection Hcancel as <-.
  apply frame_step_not_open.
  assert (Hclosing : closing (run w (trace (emit (WsClose ws)))) ws).
  { unfold closing, state_of. cbn [emit trace fst run fold_left perform sockets].
    rewrite nth_error_update, Nat.eqb_refl, Hs. simpl. unfold close.
    destruct (readyState s) eqn:Hr; simpl; rewrite ?Hr; auto. }
  pose proof (closing_steps es _ _ Hclosing) as Hlater.
  unfold is_open. destruct Hlater as [-> | ->]; reflexivity.
Qed.

(** ** The transcript buffers *)

Lemma mapM_text_values l :
  App.mapM (fun segment => lift (get_prop segment "text")) (map segment_value l)
    = ([], inr (map (fun s => VStr (text s)) l)).
Proof.
  induction l as [|s l IH]; [reflexivity|].
  cbn [map App.mapM]. rewrite IH. reflexivity.
Qed.

Lemma joined_segments_result r :
  App.joined_segments (result_value r) = ([], inr (joined_text r)).
Proof.
  unfold App.joined_segments, result_value, joined_text.
  cbn [get_prop lookup String.eqb Ascii.eqb Bool.eqb lift bind].
  cbn [App.Array_map]. rewrite mapM_text_values. cbn [bind ret app].
  unfold Array_join. rewrite map_map. reflexivity.
Qed.

Lemma mapM_string_trace l :
  trace (App.mapM_string App.joined_segments l) = [].
Proof.
  induction l as [|x l IH]; [reflexivity|].
  cbn [App.mapM_string]. rewrite (joined_segments_eta x).
  destruct (outcome (App.joined_segments x)) as [e | y]; [reflexivity|].
  cbn [bind]. destruct (App.mapM_string _ l) as [t [e | ys]]; simpl in *; subst; reflexivity.
Qed.

Lemma mapM_string_results rs :
  App.mapM_string App.joined_segments
    (map snd (map (fun kr : string * TranscriptionResult =>
                     (fst kr, result_value (snd kr))) rs))
    = ([], inr (map (fun kr => joined_text (snd kr)) rs)).
Proof.
  induction rs as [|[k r] rs IH]; [reflexivity|].
  cbn [map App.mapM_string fst snd]. rewrite joined_segments_result, IH. reflexivity.
Qed.

Lemma combined_of_batch rs :
  combined_of (inr (batch_value rs))
    = inr (String.concat (LF ++ LF) (map (fun kr => joined_text (snd kr)) rs)).
Proof.
  unfold combined_of, batch_value. cbn [App.Object_values ret bind].
  rewrite mapM_string_results. reflexivity.
Qed.

Lemma handleBatchUpload_computed net snap file rest :
  App.handleBatchUpload net snap (Some (file :: rest)) =
    ([SetIsProcessing true; SetError None;
      Fetch (batch_request (file :: rest) (App.getTranscriptionOptions snap))] ++
     completion SetBatchTranscription "Failed to process files"
       (combined_of (settled net (batch_request (file :: rest)
                                    (App.getTranscriptionOptions snap))
                       "Batch transcription failed")) ++
     [SetIsProcessing false], inr tt).
Proof.
  unfold App.handleBatchUpload. cbn [List.length Nat.eqb].
  rewrite transcribeBatch_spec.
  destruct (settled net _ "Batch transcription failed") as [e | results]; [reflexivity|].
  cbn [combined_of]. unfold emit. cbn [bind app].
  destruct (App.Object_values results) as [t [e | values]] eqn:Hvalues.
  - destruct results; simpl in Hvalues; inversion Hvalues; reflexivity.
  - assert (t = []) as -> by (destruct results; simpl in Hvalues; inversion Hvalues; reflexivity).
    cbn [bind app outcome snd].
    pose proof (mapM_string_trace values) as Ht.
    destruct (App.mapM_string App.joined_segments values) as [t [e | parts]];
      simpl in Ht; subst; reflexivity.
Qed.

Lemma completion_socket_free setter fallback r :
  (forall x, socket_free (setter x) = true) ->
  forallb socket_free (completion setter fallback r) = true.
Proof. intros Hs. destruct r; simpl; [reflexivity | rewrite Hs; reflexivity]. Qed.

Lemma handleFileUpload_socket_free net snap files :
  forallb socket_free (trace (App.handleFileUpload net snap files)) = true.
Proof.
  destruct files as [[|file rest]|]; try reflexivity.
  rewrite handleFileUpload_computed. cbn [trace fst].
  rewrite !forallb_app, completion_socket_free by reflexivity. reflexivity.
Qed.

Lemma handleBatchUpload_socket_free net snap files :
  forallb socket_free (trace (App.handleBatchUpload net snap files)) = true.
Proof.
  destruct files as [[|file rest]|]; try reflexivity.
  rewrite handleBatchUpload_computed. cbn [trace fst].
  rewrite !forallb_app, completion_socket_free by reflexivity. reflexivity.
Qed.

Lemma handleRecordToggle_socket_free net snap :
  forallb socket_free (trace (App.handleRecordToggle net snap)) = true.
Proof.
  destruct (App.isRecording snap) eqn:Hrec.
  - rewrite (handleRecordToggle_stop _ _ Hrec). cbn [trace fst].
    rewrite forallb_app. destruct (truthy (App.currentSessionId snap)); [|reflexivity].
    cbn [forallb socket_free]. rewrite completion_socket_free by reflexivity. reflexivity.
  - rewrite (handleRecordToggle_start _ _ Hrec). cbn [trace fst].
    destruct (outcome (api.startRecording net _)); reflexivity.
Qed.

Lemma fst_steps_cons w e es : fst (steps w (e :: es)) = fst (steps (fst (step w e)) es).
Proof.
  cbn [steps]. destruct (step w e) as [w1 t1]. cbn [fst].
  destruct (steps w1 es); reflexivity.
Qed.

Lemma app_after_FileChange w net files :
  fst (step w (FileChange net files)) =
    mkWorld (App.exec (app w) (trace (App.handleFileUpload net (app w) files))) (sockets w).
Proof.
  unfold step. cbn [fst settle dispatch].
  apply run_socket_free, handleFileUpload_socket_free.
Qed.

Lemma app_after_BatchChange w net files :
  fst (step w (BatchChange net files)) =
    mkWorld (App.exec (app w) (trace (App.handleBatchUpload net (app w) files))) (sockets w).
Proof.
  unfold step. cbn [fst settle dispatch].
  apply run_socket_free, handleBatchUpload_socket_free.
Qed.

Lemma app_after_RecordClick w net :
  fst (step w (RecordClick net)) =
    mkWorld (App.exec (app w) (trace (App.handleRecordToggle net (app w)))) (sockets w).
Proof.
  unfold step. cbn [fst settle dispatch].
  apply run_socket_free, handleRecordToggle_socket_free.
Qed.

Lemma file_result_replaces w r file rest :
  App.fileTranscription
    (app (fst (step w (FileChange (net_ok (result_value r)) (Some (file :: rest))))))
    = joined_text r.
Proof.
  rewrite app_after_FileChange, handleFileUpload_computed.
  unfold settled, net_ok. cbn [ok json joined_of].
  rewrite joined_segments_result. reflexivity.
Qed.

Lemma batch_result_replaces w rs file rest :
  App.batchTranscription
    (app (fst (step w (BatchChange (net_ok (batch_value rs)) (Some (file :: rest))))))
    = String.concat (LF ++ LF) (map (fun kr => joined_text (snd kr)) rs).
Proof.
  rewrite app_after_BatchChange, handleBatchUpload_computed.
  unfold settled, net_ok. cbn [ok json].
  rewrite combined_of_batch. reflexivity.
Qed.

Lemma record_start_succeeds w sid :
  App.isRecording (app w) = false ->
  App.isRecording (app (fst (step w (RecordClick (net_ok (session_value sid)))))) = true /\
  App.currentSessionId (app (fst (step w (RecordClick (net_ok (session_value sid))))))
    = VStr sid.
Proof.
  intros Hidle. rewrite app_after_RecordClick, (handleRecordToggle_start _ _ Hidle).
  split; reflexivity.
Qed.

Lemma record_stop_replaces w r :
  App.isRecording (app w) = true ->
  truthy (App.currentSessionId (app w)) = true ->
  App.micTranscription (app (fst (step w (RecordClick (net_ok (result_value r))))))
    = joined_text r /\
  App.isRecording (app (fst (step w (RecordClick (net_ok (result_value r)))))) = false.
Proof.
  intros Hrec Hid. rewrite app_after_RecordClick, (handleRecordToggle_stop _ _ Hrec), Hid.
  unfold settled, net_ok. cbn [ok json joined_of].
  rewrite joined_segments_result. split; reflexivity.
Qed.

Lemma truthy_nonempty sid : sid <> "" -> truthy (VStr sid) = true.
Proof. intros H. simpl. destruct (String.eqb_spec sid ""); [contradiction | reflexivity]. Qed.

Lemma live_two_fragments w ws x y :
  is_open w ws = true -> x <> "" -> y <> "" ->
  App.liveTranscription
    (app (fst (steps w [FrameReceived ws (fragment x); FrameReceived ws (fragment y)])))
    = (App.liveTranscription (app w) ++ LF ++ x ++ LF ++ y)%string.
Proof.
  intros Hopen Hx Hy.
  rewrite fst_steps_cons, (frame_step_open _ _ _ Hopen), (fragment_frame_trace x Hx).
  cbn [fst]. rewrite fst_steps_cons, frame_step_open by exact Hopen.
  rewrite (fragment_frame_trace y Hy).
  cbn [App.exec fold_left App.apply App.liveTranscription app fst ToString].
  rewrite !string_app_assoc. reflexivity.
Qed.

(** C5 (as amended).  Completing result R1 and then result R2 leaves the
    file buffer, and likewise the mic buffer, equal to the text of R2's
    segments joined with newlines.  The batch buffer, after a batch response
    B1 and then a batch response B2, is the joined texts of the results of
    B2, in the order of the response, with an empty line between two
    results; for a response holding the single result R2 that is R2's joined
    text.  Two fragments x then y delivered on the live channel leave the
    live buffer equal to what it held, a newline, x, a newline, y. *)
Theorem C5_buffers_replaced_or_appended :
  forall (w : World) (R1 R2 : TranscriptionResult)
         (B1 B2 : list (string * TranscriptionResult)),
    (forall f1 rest1 f2 rest2,
       App.fileTranscription
         (app (fst (steps w [FileChange (net_ok (result_value R1)) (Some (f1 :: rest1));
                             FileChange (net_ok (result_value R2)) (Some (f2 :: rest2))])))
         = joined_text R2) /\
    (forall sid1 sid2,
       App.isRecording (app w) = false -> sid1 <> "" -> sid2 <> "" ->
       App.micTranscription
         (app (fst (steps w [RecordClick (net_ok (session_value sid1));
                             RecordClick (net_ok (result_value R1));
                             RecordClick (net_ok (session_value sid2));
                             RecordClick (net_ok (result_value R2))])))
         = joined_text R2) /\
    (forall f1 rest1 f2 rest2,
       App.batchTranscription
         (app (fst (steps w [BatchChange (net_ok (batch_value B1)) (Some (f1 :: rest1));
                             BatchChange (net_ok (batch_value B2)) (Some (f2 :: rest2))])))
         = String.concat (LF ++ LF) (map (fun kr => joined_text (snd kr)) B2)) /\
    (forall key f1 rest1 f2 rest2,
       App.batchTranscription
         (app (fst (steps w [BatchChange (net_ok (batch_value B1)) (Some (f1 :: rest1));
                             BatchChange (net_ok (batch_value [(key, R2)]))
                               (Some (f2 :: rest2))])))
         = joined_text R2) /\
    (forall ws x y,
       is_open w ws = true -> x <> "" -> y <> "" ->
       App.liveTranscription
         (app (fst (steps w [FrameReceived ws (fragment x); FrameReceived ws (fragment y)])))
         = (App.liveTranscription (app w) ++ LF ++ x ++ LF ++ y)%string).
Proof.
  intros w R1 R2 B1 B2.
  split; [|split; [|split; [|split]]].
  - intros f1 rest1 f2 rest2.
    rewrite !fst_steps_cons. cbn [steps fst]. apply file_result_replaces.
  - intros sid1 sid2 Hidle Hs1 Hs2.
    rewrite !fst_steps_cons. cbn [steps fst].
    destruct (record_start_succeeds w sid1 Hidle) as [Hrec1 Hid1].
    set (w1 := fst (step w (RecordClick (net_ok (session_value sid1))))) in *.
    assert (Htruthy1 : truthy (App.currentSessionId (app w1)) = true)
      by (rewrite Hid1; apply truthy_nonempty, Hs1).
    destruct (record_stop_replaces w1 R1 Hrec1 Htruthy1) as [_ Hidle2].
    set (w2 := fst (step w1 (RecordClick (net_ok (result_value R1))))) in *.
    destruct (record_start_succeeds w2 sid2 Hidle2) as [Hrec3 Hid3].
    set (w3 := fst (step w2 (RecordClick (net_ok (session_value sid2))))) in *.
    assert (Htruthy3 : truthy (App.currentSessionId (app w3)) = true)
      by (rewrite Hid3; apply truthy_nonempty, Hs2).
    apply (record_stop_replaces w3 R2 Hrec3 Htruthy3).
  - intros f1 rest1 f2 rest2.
    rewrite !fst_steps_cons. cbn [steps fst]. apply batch_result_replaces.
  - intros key f1 rest1 f2 rest2.
    rewrite !fst_steps_cons. cbn [steps fst]. rewrite batch_result_replaces.
    cbn [map snd String.concat]. reflexivity.
  - intros ws x y. apply live_two_fragments.
Qed.

Lemma C5_live_x_then_y :
  is_open liveWorld 0 = true /\
  App.liveTranscription
    (app (fst (steps liveWorld [FrameReceived 0 (fragment "x"); FrameReceived 0 (fragment "y")])))
    = (LF ++ "x" ++ LF ++ "y")%string /\
  App.isRecording (app initialWorld) = false /\
  App.micTranscription
    (app (fst (steps initialWorld [RecordClick (net_ok (session_value "s1"));
                                   RecordClick (net_ok (result_value (said "one")));
                                   RecordClick (net_ok (session_value "s2"));
                                   RecordClick (net_ok (result_value (said "two")))])))
    = "two".
Proof.
  pose proof (C5_buffers_replaced_or_appended liveWorld (said "one") (said "two") [] [])
    as [_ [_ [_ [_ Hlive]]]].
  pose proof (C5_buffers_replaced_or_appended initialWorld (said "one") (said "two") [] [])
    as [_ [Hmic _]].
  split; [reflexivity|].
  split; [apply (Hlive 0 "x" "y"); [reflexivity | discriminate | discriminate]|].
  split; [reflexivity|].
  apply (Hmic "s1" "s2"); [reflexivity | discriminate | discriminate].
Defined.

(** C5 as stated fails for the batch buffer: after a batch response with
    two results, the buffer is not the segments' text joined with newlines;
    the two results are an empty line apart. *)
Lemma C5_batch_of_two_has_an_empty_line :
  App.batchTranscription
    (app (fst (steps initialWorld
                 [BatchChange (net_ok (batch_value [("a.wav", said "one")])) (Some [sampleFile]);
                  BatchChange (net_ok (batch_value [("a.wav", said "two"); ("b.wav", said "three")]))
                    (Some [sampleFile; sampleFile])])))
    = ("two" ++ LF ++ LF ++ "three")%string /\
  String.concat LF
    (map text (batch_segments [("a.wav", said "two"); ("b.wav", said "three")]))
    = ("two" ++ LF ++ "three")%string /\
  App.batchTranscription
    (app (fst (steps initialWorld
                 [BatchChange (net_ok (batch_value [("a.wav", said "one")])) (Some [sampleFile]);
                  BatchChange (net_ok (batch_value [("a.wav", said "two"); ("b.wav", said "three")]))
                    (Some [sampleFile; sampleFile])])))
    <> String.concat LF
         (map text (batch_segments [("a.wav", said "two"); ("b.wav", said "three")])).
Proof.
  split; [reflexivity|]. split; [reflexivity|]. intros H. vm_compute in H. discriminate H.
Qed.

(** ** Further properties: what a handler leaves alone *)

Lemma exec_spares_buffers t : forall s,
  (spares FileBuffer t = true ->
   App.fileTranscription (App.exec s t) = App.fileTranscription s) /\
  (spares MicBuffer t = true ->
   App.micTranscription (App.exec s t) = App.micTranscription s) /\
  (spares BatchBuffer t = true ->
   App.batchTranscription (App.exec s t) = App.batchTranscription s) /\
  (spares LiveBuffer t = true ->
   App.liveTranscription (App.exec s t) = App.liveTranscription s).
Proof.
  induction t as [|a t IH]; intros s; [repeat split|].
  cbn [App.exec fold_left]. fold (App.exec (App.apply s a) t).
  destruct (IH (App.apply s a)) as (IH1 & IH2 & IH3 & IH4).
  unfold spares in *. cbn [forallb].
  split; [|split; [|split]]; intros H; apply andb_prop in H as [Ha H].
  - rewrite (IH1 H). destruct a; try discriminate; reflexivity.
  - rewrite (IH2 H). destruct a; try discriminate; reflexivity.
  - rewrite (IH3 H). destruct a; try discriminate; reflexivity.
  - rewrite (IH4 H). destruct a; try discriminate; reflexivity.
Qed.

Lemma exec_spares_flags t : forall s,
  (spares RecordingFlag t = true -> App.isRecording (App.exec s t) = App.isRecording s) /\
  (spares ProcessingFlag t = true -> App.isProcessing (App.exec s t) = App.isProcessing s) /\
  (spares SessionId t = true ->
   App.currentSessionId (App.exec s t) = App.currentSessionId s) /\
  (spares ErrorState t = true -> App.error (App.exec s t) = App.error s).
Proof.
  induction t as [|a t IH]; intros s; [repeat split|].
  cbn [App.exec fold_left]. fold (App.exec (App.apply s a) t).
  destruct (IH (App.apply s a)) as (IH1 & IH2 & IH3 & IH4).
  unfold spares in *. cbn [forallb].
  split; [|split; [|split]]; intros H; apply andb_prop in H as [Ha H].
  - rewrite (IH1 H). destruct a; try discriminate; reflexivity.
  - rewrite (IH2 H). destruct a; try discriminate; reflexivity.
  - rewrite (IH3 H). destruct a; try discriminate; reflexivity.
  - rewrite (IH4 H). destruct a; try discriminate; reflexivity.
Qed.

Lemma spares_app sl t1 t2 : spares sl (t1 ++ t2) = spares sl t1 && spares sl t2.
Proof. apply forallb_app. Qed.

Lemma spares_completion sl setter fallback r :
  Slot_eqb ErrorState sl = false ->
  (forall x, Slot_eqb (slot_of (setter x)) sl = false) ->
  spares sl (completion setter fallback r) = true.
Proof.
  intros He Hs. destruct r; unfold spares; cbn [completion forallb slot_of];
    [rewrite He | rewrite Hs]; reflexivity.
Qed.

Lemma joined_of_cases net req failed (r : exn + string) :
  joined_of (settled net req failed) = r ->
  match r with
  | inl err =>
      settled net req failed = inl err \/
      exists result, settled net req failed = inr result /\
                     outcome (App.joined_segments result) = inl err
  | inr joined =>
      exists result, settled net req failed = inr result /\
                     outcome (App.joined_segments result) = inr joined
  end.
Proof.
  intros <-. destruct (settled net req failed) as [e | result]; cbn [joined_of].
  - left. reflexivity.
  - destruct (outcome (App.joined_segments result)) eqn:E.
    + right. exists result. split; [reflexivity | exact E].
    + exists result. split; [reflexivity | exact E].
Qed.


(** X1.  A file upload with a file selected sends one request and always
    ends with the processing flag off; it never touches the mic, batch or
    live buffer, the recording flag or the session identifier.  When the call
    and the map-and-join of its result succeed, the file buffer is the joined
    text and the error is cleared; when either fails, the file buffer keeps
    what it held and the error is the failure's message (the fallback text
    for a thrown value that is not an [Error]). *)
Theorem X1_file_upload_settles :
  forall (net : Net) (snap s : App.AppState) (file : File) (rest : list File),
    requests (trace (App.handleFileUpload net snap (Some (file :: rest))))
      = [transcribe_request file (App.getTranscriptionOptions snap)] /\
    App.isProcessing (after_file_upload net snap s (Some (file :: rest))) = false /\
    App.micTranscription (after_file_upload net snap s (Some (file :: rest)))
      = App.micTranscription s /\
    App.batchTranscription (after_file_upload net snap s (Some (file :: rest)))
      = App.batchTranscription s /\
    App.liveTranscription (after_file_upload net snap s (Some (file :: rest)))
      = App.liveTranscription s /\
    App.isRecording (after_file_upload net snap s (Some (file :: rest))) = App.isRecording s /\
    App.currentSessionId (after_file_upload net snap s (Some (file :: rest)))
      = App.currentSessionId s /\
    (forall result joined,
       outcome (api.transcribeFile net file (App.getTranscriptionOptions snap)) = inr result ->
       outcome (App.joined_segments result) = inr joined ->
       App.fileTranscription (after_file_upload net snap s (Some (file :: rest))) = joined /\
       App.error (after_file_upload net snap s (Some (file :: rest))) = None) /\
    (forall err,
       outcome (api.transcribeFile net file (App.getTranscriptionOptions snap)) = inl err \/
       (exists result,
          outcome (api.transcribeFile net file (App.getTranscriptionOptions snap)) = inr result /\
          outcome (App.joined_segments result) = inl err) ->
       App.fileTranscription (after_file_upload net snap s (Some (file :: rest)))
         = App.fileTranscription s /\
       App.error (after_file_upload net snap s (Some (file :: rest)))
         = Some (App.message_or err "Failed to process file")).
Proof.
  intros net snap s file rest. unfold after_file_upload.
  rewrite handleFileUpload_computed, transcribeFile_spec. cbn [trace outcome fst snd].
  set (opts := App.getTranscriptionOptions snap).
  set (r := joined_of (settled net (transcribe_request file opts) "Transcription failed")).
  assert (Hspare : forall sl,
            Slot_eqb ErrorState sl = false -> Slot_eqb ProcessingFlag sl = false ->
            Slot_eqb FileBuffer sl = false -> Slot_eqb NoSlot sl = false ->
            spares sl ([SetIsProcessing true; SetError None;
                        Fetch (transcribe_request file opts)] ++
                       completion SetFileTranscription "Failed to process file" r ++
                       [SetIsProcessing false]) = true).
  { intros sl He Hp Hf Hn. rewrite !spares_app, spares_completion by (intros; assumption).
    destruct sl; try discriminate; reflexivity. }
  split; [rewrite !requests_app, requests_completion by reflexivity; reflexivity|].
  split; [rewrite !exec_app; reflexivity|].
  split; [apply exec_spares_buffers, Hspare; reflexivity|].
  split; [apply exec_spares_buffers, Hspare; reflexivity|].
  split; [apply exec_spares_buffers, Hspare; reflexivity|].
  split; [apply exec_spares_flags, Hspare; reflexivity|].
  split; [apply exec_spares_flags, Hspare; reflexivity|].
  split.
  - intros result joined Hcall Hjoin.
    assert (Hr : r = inr joined) by (subst r; rewrite Hcall; exact Hjoin).
    rewrite Hr. split; reflexivity.
  - intros err Hfail.
    assert (Hr : r = inl err).
    { subst r. destruct Hfail as [-> | [result [-> Hjoin]]]; [reflexivity | exact Hjoin]. }
    rewrite Hr. split; reflexivity.
Qed.

Lemma X1_file_upload_unshaped_body :
  (outcome (api.transcribeFile (net_ok (VObj [])) sampleFile
              (App.getTranscriptionOptions App.initialState))
     = inl (TypeError "Cannot read properties of undefined (reading 'map')") \/
   exists result,
     outcome (api.transcribeFile (net_ok (VObj [])) sampleFile
                (App.getTranscriptionOptions App.initialState)) = inr result /\
     outcome (App.joined_segments result)
       = inl (TypeError "Cannot read properties of undefined (reading 'map')")) /\
  App.error (after_file_upload (net_ok (VObj [])) App.initialState activeState
               (Some [sampleFile]))
    = Some "Cannot read properties of undefined (reading 'map')".
Proof.
  assert (H : outcome (api.transcribeFile (net_ok (VObj [])) sampleFile
                         (App.getTranscriptionOptions App.initialState))
                = inl (TypeError "Cannot read properties of undefined (reading 'map')") \/
              exists result,
                outcome (api.transcribeFile (net_ok (VObj [])) sampleFile
                           (App.getTranscriptionOptions App.initialState)) = inr result /\
                outcome (App.joined_segments result)
                  = inl (TypeError "Cannot read properties of undefined (reading 'map')")).
  { right. exists (VObj []). split; reflexivity. }
  split; [exact H|].
  pose proof (X1_file_upload_settles (net_ok (VObj [])) App.initialState activeState
                sampleFile []) as (_ & _ & _ & _ & _ & _ & _ & _ & Hfail).
  exact (proj2 (Hfail _ H)).
Defined.

(** ** Further properties: results that do not have the declared shape *)








(** X3.  A batch upload with at least one file sends one request carrying
    all the files and always ends with the processing flag off; it never
    touches the file, mic or live buffer, the recording flag or the session
    identifier.  On success the batch buffer is the combined text and the
    error is cleared; when the call fails, or the response cannot be
    combined, the batch buffer keeps what it held and the error is the
    failure's message. *)
Theorem X3_batch_upload_settles :
  forall (net : Net) (snap s : App.AppState) (file : File) (rest : list File),
    requests (trace (App.handleBatchUpload net snap (Some (file :: rest))))
      = [batch_request (file :: rest) (App.getTranscriptionOptions snap)] /\
    App.isProcessing (after_batch_upload net snap s (Some (file :: rest))) = false /\
    App.fileTranscription (after_batch_upload net snap s (Some (file :: rest)))
      = App.fileTranscription s /\
    App.micTranscription (after_batch_upload net snap s (Some (file :: rest)))
      = App.micTranscription s /\
    App.liveTranscription (after_batch_upload net snap s (Some (file :: rest)))
      = App.liveTranscription s /\
    App.isRecording (after_batch_upload net snap s (Some (file :: rest))) = App.isRecording s /\
    App.currentSessionId (after_batch_upload net snap s (Some (file :: rest)))
      = App.currentSessionId s /\
    (forall results combined,
       outcome (api.transcribeBatch net (file :: rest) (App.getTranscriptionOptions snap))
         = inr results ->
       combined_of (inr results) = inr combined ->
       App.batchTranscription (after_batch_upload net snap s (Some (file :: rest))) = combined /\
       App.error (after_batch_upload net snap s (Some (file :: rest))) = None) /\
    (forall err,
       outcome (api.transcribeBatch net (file :: rest) (App.getTranscriptionOptions snap))
         = inl err \/
       (exists results,
          outcome (api.transcribeBatch net (file :: rest) (App.getTranscriptionOptions snap))
            = inr results /\
          combined_of (inr results) = inl err) ->
       App.batchTranscription (after_batch_upload net snap s (Some (file :: rest)))
         = App.batchTranscription s /\
       App.error (after_batch_upload net snap s (Some (file :: rest)))
         = Some (App.message_or err "Failed to process files")).
Proof.
  intros net snap s file rest. unfold after_batch_upload.
  rewrite handleBatchUpload_computed, transcribeBatch_spec. cbn [trace outcome fst snd].
  set (opts := App.getTranscriptionOptions snap).
  set (r := combined_of (settled net (batch_request (file :: rest) opts)
                           "Batch transcription failed")).
  assert (Hspare : forall sl,
            Slot_eqb ErrorState sl = false -> Slot_eqb ProcessingFlag sl = false ->
            Slot_eqb BatchBuffer sl = false -> Slot_eqb NoSlot sl = false ->
            spares sl ([SetIsProcessing true; SetError None;
                        Fetch (batch_request (file :: rest) opts)] ++
                       completion SetBatchTranscription "Failed to process files" r ++
                       [SetIsProcessing false]) = true).
  { intros sl He Hp Hf Hn. rewrite !spares_app, spares_completion by (intros; assumption).
    destruct sl; try discriminate; reflexivity. }
  split; [rewrite !requests_app, requests_completion by reflexivity; reflexivity|].
  split; [rewrite !exec_app; reflexivity|].
  split; [apply exec_spares_buffers, Hspare; reflexivity|].
  split; [apply exec_spares_buffers, Hspare; reflexivity|].
  split; [apply exec_spares_buffers, Hspare; reflexivity|].
  split; [apply exec_spares_flags, Hspare; reflexivity|].
  split; [apply exec_spares_flags, Hspare; reflexivity|].
  split.
  - intros results combined Hcall Hcomb.
    assert (Hr : r = inr combined) by (subst r; rewrite Hcall; exact Hcomb).
    rewrite Hr. split; reflexivity.
  - intros err Hfail.
    assert (Hr : r = inl err).
    { subst r. destruct Hfail as [-> | [results [-> Hcomb]]]; [reflexivity | exact Hcomb]. }
    rewrite Hr. split; reflexivity.
Qed.

Lemma X3_batch_upload_network_down :
  (outcome (api.transcribeBatch net_down [sampleFile]
              (App.getTranscriptionOptions App.initialState))
     = inl (TypeError "Failed to fetch") \/
   exists results,
     outcome (api.transcribeBatch net_down [sampleFile]
                (App.getTranscriptionOptions App.initialState)) = inr results /\
     combined_of (inr results) = inl (TypeError "Failed to fetch")) /\
  App.error (after_batch_upload net_down App.initialState App.initialState
               (Some [sampleFile])) = Some "Failed to fetch".
Proof.
  assert (H : outcome (api.transcribeBatch net_down [sampleFile]
                         (App.getTranscriptionOptions App.initialState))
                = inl (TypeError "Failed to fetch") \/
              exists results,
                outcome (api.transcribeBatch net_down [sampleFile]
                           (App.getTranscriptionOptions App.initialState)) = inr results /\
                combined_of (inr results) = inl (TypeError "Failed to fetch")).
  { left. reflexivity. }
  split; [exact H|].
  pose proof (X3_batch_upload_settles net_down App.initialState App.initialState
                sampleFile []) as (_ & _ & _ & _ & _ & _ & _ & _ & Hfail).
  exact (proj2 (Hfail _ H)).
Defined.



(** ** Further properties: the record toggle *)

(** X5.  A start that fails (network failure, non-success status, a body
    that is not JSON or is [null]) sends its one request and leaves the
    component idle: recording flag, session identifier and all four buffers
    are what they were; the error is the failure's message. *)
Theorem X5_failed_start_stays_idle :
  forall (net : Net) (snap s : App.AppState) (err : exn),
    App.isRecording snap = false ->
    outcome (api.startRecording net (App.getTranscriptionOptions snap)) = inl err ->
    requests (trace (App.handleRecordToggle net snap))
      = [start_request (App.getTranscriptionOptions snap)] /\
    App.isRecording (after_record_toggle net snap s) = App.isRecording s /\
    App.currentSessionId (after_record_toggle net snap s) = App.currentSessionId s /\
    buffers (after_record_toggle net snap s) = buffers s /\
    App.isProcessing (after_record_toggle net snap s) = App.isProcessing s /\
    App.error (after_record_toggle net snap s)
      = Some (App.message_or err "Failed to start recording").
Proof.
  intros net snap s err Hidle Hfail. unfold after_record_toggle.
  rewrite (handleRecordToggle_start _ _ Hidle), Hfail. repeat split.
Qed.

Lemma X5_start_answered_with_null :
  App.isRecording App.initialState = false /\
  outcome (api.startRecording (net_ok VNull) (App.getTranscriptionOptions App.initialState))
    = inl (TypeError "Cannot read properties of null (reading 'sessionId')") /\
  App.isRecording (after_record_toggle (net_ok VNull) App.initialState App.initialState)
    = false /\
  App.error (after_record_toggle (net_ok VNull) App.initialState App.initialState)
    = Some "Cannot read properties of null (reading 'sessionId')".
Proof.
  split; [reflexivity|]. split; [reflexivity|].
  pose proof (X5_failed_start_stays_idle (net_ok VNull) App.initialState App.initialState
                _ eq_refl eq_refl) as (_ & Hflag & _ & _ & _ & Herr).
  split; [exact Hflag | exact Herr].
Defined.

(** X6.  A start whose answer carries no usable identifier (the
    [sessionId] is missing, [null], or the empty string) still counts as
    started: the recording flag is set and the error cleared.  The toggle
    that follows then sends no stop request at all; it only clears the flag
    and resets the identifier, leaving buffers and error alone. *)
Theorem X6_start_without_identifier_cannot_be_stopped :
  forall (net net' : Net) (snap s s' : App.AppState) (sessionId : value),
    App.isRecording snap = false ->
    outcome (api.startRecording net (App.getTranscriptionOptions snap)) = inr sessionId ->
    truthy sessionId = false ->
    App.isRecording (after_record_toggle net snap s) = true /\
    App.currentSessionId (after_record_toggle net snap s) = sessionId /\
    App.error (after_record_toggle net snap s) = None /\
    trace (App.handleRecordToggle net' (after_record_toggle net snap s))
      = [SetIsRecording false; SetCurrentSessionId VNull] /\
    App.isRecording (after_record_toggle net' (after_record_toggle net snap s) s') = false /\
    buffers (after_record_toggle net' (after_record_toggle net snap s) s') = buffers s' /\
    App.error (after_record_toggle net' (after_record_toggle net snap s) s') = App.error s'.
Proof.
  intros net net' snap s s' sessionId Hidle Hstart Hfalsy.
  assert (Hstate : App.isRecording (after_record_toggle net snap s) = true /\
                   App.currentSessionId (after_record_toggle net snap s) = sessionId /\
                   App.error (after_record_toggle net snap s) = None).
  { unfold after_record_toggle. rewrite (handleRecordToggle_start _ _ Hidle), Hstart.
    repeat split. }
  destruct Hstate as (Hrec & Hid & Herr).
  split; [exact Hrec|]. split; [exact Hid|]. split; [exact Herr|].
  set (mid := after_record_toggle net snap s) in *.
  assert (Hstop : App.handleRecordToggle net' mid
                  = ([SetIsRecording false; SetCurrentSessionId VNull], inr tt)).
  { rewrite (handleRecordToggle_stop _ _ Hrec), Hid, Hfalsy. reflexivity. }
  unfold after_record_toggle. rewrite Hstop. repeat split.
Qed.

Lemma X6_answer_without_sessionId :
  App.isRecording App.initialState = false /\
  outcome (api.startRecording (net_ok (VObj [])) (App.getTranscriptionOptions App.initialState))
    = inr VUndefined /\
  truthy VUndefined = false /\
  App.isRecording (after_record_toggle (net_ok (VObj [])) App.initialState App.initialState)
    = true /\
  trace (App.handleRecordToggle net_down
           (after_record_toggle (net_ok (VObj [])) App.initialState App.initialState))
    = [SetIsRecording false; SetCurrentSessionId VNull].
Proof.
  split; [reflexivity|]. split; [reflexivity|]. split; [reflexivity|].
  pose proof (X6_start_without_identifier_cannot_be_stopped (net_ok (VObj [])) net_down
                App.initialState App.initialState App.initialState VUndefined
                eq_refl eq_refl eq_refl) as (Hrec & _ & _ & Htrace & _).
  split; [exact Hrec | exact Htrace].
Defined.

(** X7.  A stop with an identifier stored never touches the file, batch or
    live buffer nor the processing flag.  When the stop call and the
    map-and-join of its result succeed, the mic buffer is the joined text and
    the error state is left as it was (a stop does not clear an earlier
    error); when either fails, the mic buffer keeps what it held and the
    error is the failure's message. *)
Theorem X7_stop_outcome :
  forall (net : Net) (snap s : App.AppState),
    App.isRecording snap = true ->
    truthy (App.currentSessionId snap) = true ->
    App.fileTranscription (after_record_toggle net snap s) = App.fileTranscription s /\
    App.batchTranscription (after_record_toggle net snap s) = App.batchTranscription s /\
    App.liveTranscription (after_record_toggle net snap s) = App.liveTranscription s /\
    App.isProcessing (after_record_toggle net snap s) = App.isProcessing s /\
    (forall result joined,
       outcome (api.stopRecording net (App.currentSessionId snap)) = inr result ->
       outcome (App.joined_segments result) = inr joined ->
       App.micTranscription (after_record_toggle net snap s) = joined /\
       App.error (after_record_toggle net snap s) = App.error s) /\
    (forall err,
       outcome (api.stopRecording net (App.currentSessionId snap)) = inl err \/
       (exists result,
          outcome (api.stopRecording net (App.currentSessionId snap)) = inr result /\
          outcome (App.joined_segments result) = inl err) ->
       App.micTranscription (after_record_toggle net snap s) = App.micTranscription s /\
       App.error (after_record_toggle net snap s)
         = Some (App.message_or err "Failed to stop recording")).
Proof.
  intros net snap s Hrec Hid. unfold after_record_toggle.
  rewrite (handleRecordToggle_stop _ _ Hrec), Hid, stopRecording_spec.
  cbn [trace outcome fst snd].
  set (r := joined_of (settled net (stop_request (App.currentSessionId snap))
                         "Failed to stop recording")).
  assert (Hspare : forall sl,
            Slot_eqb ErrorState sl = false -> Slot_eqb MicBuffer sl = false ->
            Slot_eqb RecordingFlag sl = false -> Slot_eqb SessionId sl = false ->
            Slot_eqb NoSlot sl = false ->
            spares sl ((Fetch (stop_request (App.currentSessionId snap)) ::
                        completion SetMicTranscription "Failed to stop recording" r) ++
                       [SetIsRecording false; SetCurrentSessionId VNull]) = true).
  { intros sl He Hm Hr Hs Hn. rewrite spares_app.
    change (Fetch ?x :: ?l) with ([Fetch x] ++ l).
    rewrite spares_app, spares_completion by (intros; assumption).
    destruct sl; try discriminate; reflexivity. }
  split; [apply exec_spares_buffers, Hspare; reflexivity|].
  split; [apply exec_spares_buffers, Hspare; reflexivity|].
  split; [apply exec_spares_buffers, Hspare; reflexivity|].
  split; [apply exec_spares_flags, Hspare; reflexivity|].
  split.
  - intros result joined Hcall Hjoin.
    assert (Hr : r = inr joined) by (subst r; rewrite Hcall; exact Hjoin).
    rewrite Hr. split; reflexivity.
  - intros err Hfail.
    assert (Hr : r = inl err).
    { subst r. destruct Hfail as [-> | [result [-> Hjoin]]]; [reflexivity | exact Hjoin]. }
    rewrite Hr. split; reflexivity.
Qed.

Lemma X7_stop_with_network_down :
  App.isRecording activeState = true /\
  truthy (App.currentSessionId activeState) = true /\
  App.micTranscription (after_record_toggle net_down activeState activeState)
    = App.micTranscription activeState /\
  App.error (after_record_toggle net_down activeState activeState) = Some "Failed to fetch".
Proof.
  split; [reflexivity|]. split; [reflexivity|].
  pose proof (X7_stop_outcome net_down activeState activeState eq_refl eq_refl)
    as (_ & _ & _ & _ & _ & Hfail).
  exact (Hfail (TypeError "Failed to fetch") (or_introl eq_refl)).
Defined.

(** ** Further properties: the world under sequences of events *)

Lemma app_run t : forall w, app (run w t) = App.exec (app w) t.
Proof.
  induction t as [|a t IH]; intros w; [reflexivity|].
  cbn [run fold_left]. fold (run (perform w a) t). rewrite IH.
  destruct a; reflexivity.
Qed.

Lemma app_step w e : app (fst (step w e)) = App.exec (app w) (snd (step w e)).
Proof.
  unfold step. cbn [fst snd]. rewrite app_run. destruct e; reflexivity.
Qed.

Lemma snd_steps_cons w e es :
  snd (steps w (e :: es)) = snd (step w e) ++ snd (steps (fst (step w e)) es).
Proof.
  cbn [steps]. destruct (step w e) as [w1 t1]. cbn [fst snd].
  destruct (steps w1 es); reflexivity.
Qed.

Lemma socket_free_no_close t :
  forallb socket_free t = true -> forallb (fun a => negb (is_close a)) t = true.
Proof.
  induction t as [|a t IH]; [reflexivity|]. cbn [forallb]. intros H.
  apply andb_prop in H as [Ha Ht]. rewrite (IH Ht).
  destruct a; try discriminate; reflexivity.
Qed.

Lemma dispatch_no_close w e :
  forallb (fun a => negb (is_close a)) (trace (dispatch w e)) = true.
Proof.
  destruct e; cbn [dispatch].
  - apply socket_free_no_close, handleFileUpload_socket_free.
  - apply socket_free_no_close, handleBatchUpload_socket_free.
  - apply socket_free_no_close, handleRecordToggle_socket_free.
  - rewrite handleLiveCaptioning_computed. destruct (App.isRecording (app w)); reflexivity.
  - rewrite effectCleanup_computed.
    destruct (truthy (App.currentSessionId (app w))); [|reflexivity].
    destruct (settled net _ "Failed to stop recording"); reflexivity.
  - destruct (nth_error (sockets w) ws) as [sock|]; [|reflexivity].
    destruct (readyState sock); reflexivity.
  - destruct (is_open w ws); [|reflexivity].
    apply socket_free_no_close, ws_onmessage_socket_free.
  - destruct (nth_error (sockets w) ws); reflexivity.
  - reflexivity.
Qed.

Lemma is_open_perform w a ws :
  is_close a = false -> is_open w ws = true -> is_open (perform w a) ws = true.
Proof.
  intros Ha Hopen. destruct a; try discriminate; try exact Hopen.
  unfold is_open, state_of in *. cbn [perform sockets].
  destruct (nth_error (sockets w) ws) as [sock|] eqn:Hs; [|discriminate].
  rewrite nth_error_app1, Hs; [exact Hopen|].
  apply nth_error_Some. rewrite Hs. discriminate.
Qed.

Lemma is_open_run t : forall w ws,
  forallb (fun a => negb (is_close a)) t = true ->
  is_open w ws = true -> is_open (run w t) ws = true.
Proof.
  induction t as [|a t IH]; intros w ws Ht Hopen; [exact Hopen|].
  cbn [forallb] in Ht. apply andb_prop in Ht as [Ha Ht].
  cbn [run fold_left]. apply IH; [exact Ht|].
  apply is_open_perform; [|exact Hopen]. destruct (is_close a); [discriminate | reflexivity].
Qed.

Lemma is_open_settle w e ws :
  e <> SocketClosed ws -> is_open w ws = true -> is_open (settle w e) ws = true.
Proof.
  intros He Hopen. destruct e; try exact Hopen; unfold is_open, state_of in *;
    cbn [settle sockets]; rewrite nth_error_update;
    destruct (nth_error (sockets w) ws) as [sock|] eqn:Hs; try discriminate.
  - destruct (Nat.eqb ws0 ws); [|exact Hopen]. cbn [option_map] in *.
    destruct (readyState sock) eqn:Hr; try discriminate. cbn. rewrite Hr. reflexivity.
  - rewrite Nat.eqb_sym. destruct (Nat.eqb_spec ws ws0) as [-> | Hne]; [|exact Hopen].
    contradiction He. reflexivity.
Qed.

Lemma is_open_step w e ws :
  e <> SocketClosed ws -> is_open w ws = true -> is_open (fst (step w e)) ws = true.
Proof.
  intros He Hopen. unfold step. cbn [fst].
  apply is_open_run; [apply dispatch_no_close | apply is_open_settle; assumption].
Qed.

(** X8.  Nothing the component does closes a live socket: no handler run,
    under any sequence of events, calls [close].  So a socket that is open
    stays open until the remote side closes it, however often the buttons
    are pressed in between, and a fragment that arrives on it is still
    handed to the subscriber. *)
Theorem X8_no_event_closes_a_live_socket :
  forall (w : World) (es : list Event),
    forallb (fun a => negb (is_close a)) (snd (steps w es)) = true /\
    forall ws,
      is_open w ws = true ->
      Forall (fun e => e <> SocketClosed ws) es ->
      is_open (fst (steps w es)) ws = true /\
      forall t, t <> "" ->
        deliveries (snd (step (fst (steps w es)) (FrameReceived ws (fragment t))))
          = [VStr t].
Proof.
  intros w es. split.
  - revert w. induction es as [|e es IH]; intros w; [reflexivity|].
    rewrite snd_steps_cons, forallb_app, IH, andb_true_r.
    unfold step. cbn [snd]. apply dispatch_no_close.
  - intros ws Hopen Hes.
    assert (Hlater : is_open (fst (steps w es)) ws = true).
    { revert w Hopen. induction Hes as [|e es He _ IH]; intros w Hopen; [exact Hopen|].
      rewrite fst_steps_cons. apply IH, is_open_step; assumption. }
    split; [exact Hlater|].
    intros t Ht. rewrite (frame_step_open _ _ _ Hlater), (fragment_frame_trace t Ht).
    reflexivity.
Qed.

Lemma X8_three_presses_later :
  is_open liveWorld 0 = true /\
  Forall (fun e => e <> SocketClosed 0) [LiveClick; LiveClick; LiveClick] /\
  is_open (fst (steps liveWorld [LiveClick; LiveClick; LiveClick])) 0 = true.
Proof.
  assert (H : Forall (fun e => e <> SocketClosed 0) [LiveClick; LiveClick; LiveClick])
    by (repeat constructor; discriminate).
  split; [reflexivity|]. split; [exact H|].
  exact (proj1 (proj2 (X8_no_event_closes_a_live_socket liveWorld
                         [LiveClick; LiveClick; LiveClick]) 0 eq_refl H)).
Defined.

Lemma nth_error_snoc {A} (l : list A) x : nth_error (l ++ [x]) (List.length l) = Some x.
Proof. induction l as [|y l IH]; [reflexivity | exact IH]. Qed.

Lemma update_snoc f l x : update (List.length l) f (l ++ [x]) = l ++ [f x].
Proof. induction l as [|y l IH]; [reflexivity|]. cbn. rewrite IH. reflexivity. Qed.

Lemma live_start_step w :
  App.isRecording (app w) = false ->
  step w LiveClick =
    (mkWorld (App.apply (App.apply (app w) (SetIsRecording true)) (SetError None))
       (sockets w ++ [mkSocket api.wsUrl (App.getTranscriptionOptions (app w)) CONNECTING]),
     [SetIsRecording true; SetError None;
      NewWebSocket (List.length (sockets w)) api.wsUrl (App.getTranscriptionOptions (app w))]).
Proof.
  intros Hidle. unfold step. cbn [dispatch settle].
  rewrite handleLiveCaptioning_computed, Hidle. reflexivity.
Qed.

Lemma live_stop_step w :
  App.isRecording (app w) = true ->
  step w LiveClick =
    (mkWorld (App.apply (app w) (SetIsRecording false)) (sockets w), [SetIsRecording false]).
Proof.
  intros Hrec. unfold step. cbn [dispatch settle].
  rewrite handleLiveCaptioning_computed, Hrec. reflexivity.
Qed.

(** X9.  Starting live captioning opens one new socket to the
    live-captioning endpoint and leaves the sockets already there alone.
    When the connection is established the options of the render that
    started it are sent, once: a repeated open notification sends nothing.
    The socket is then open. *)
Theorem X9_options_are_sent_once_when_the_socket_opens :
  forall (w : World),
    App.isRecording (app w) = false ->
    snd (steps w [LiveClick; SocketOpened (List.length (sockets w));
                  SocketOpened (List.length (sockets w))])
      = [SetIsRecording true; SetError None;
         NewWebSocket (List.length (sockets w)) api.wsUrl
           (App.getTranscriptionOptions (app w));
         WsSend (List.length (sockets w))
           (options_value (App.getTranscriptionOptions (app w)))] /\
    sockets (fst (steps w [LiveClick; SocketOpened (List.length (sockets w));
                           SocketOpened (List.length (sockets w))]))
      = sockets w ++ [mkSocket api.wsUrl (App.getTranscriptionOptions (app w)) OPEN] /\
    App.isRecording
      (app (fst (steps w [LiveClick; SocketOpened (List.length (sockets w));
                          SocketOpened (List.length (sockets w))]))) = true.
Proof.
  intros w Hidle.
  set (n := List.length (sockets w)).
  set (opts := App.getTranscriptionOptions (app w)).
  assert (H1 : step w LiveClick =
               (mkWorld (App.apply (App.apply (app w) (SetIsRecording true)) (SetError None))
                  (sockets w ++ [mkSocket api.wsUrl opts CONNECTING]),
                [SetIsRecording true; SetError None; NewWebSocket n api.wsUrl opts]))
    by (apply live_start_step, Hidle).
  set (w1 := mkWorld (App.apply (App.apply (app w) (SetIsRecording true)) (SetError None))
               (sockets w ++ [mkSocket api.wsUrl opts CONNECTING])) in *.
  assert (H2 : step w1 (SocketOpened n) =
               (mkWorld (app w1) (sockets w ++ [mkSocket api.wsUrl opts OPEN]),
                [WsSend n (options_value opts)])).
  { unfold step. cbn [dispatch settle]. subst w1 n. cbn [sockets app].
    rewrite nth_error_snoc, update_snoc. reflexivity. }
  set (w2 := mkWorld (app w1) (sockets w ++ [mkSocket api.wsUrl opts OPEN])) in *.
  assert (H3 : step w2 (SocketOpened n) = (w2, [])).
  { unfold step. cbn [dispatch settle]. subst w2 n. cbn [sockets app].
    rewrite nth_error_snoc, update_snoc. reflexivity. }
  rewrite !snd_steps_cons, !fst_steps_cons. cbn [steps fst snd].
  rewrite H1. cbn [fst snd]. rewrite H2. cbn [fst snd]. rewrite H3.
  repeat split.
Qed.

Lemma X9_first_channel :
  App.isRecording (app initialWorld) = false /\
  sockets (fst (steps initialWorld [LiveClick; SocketOpened 0; SocketOpened 0]))
    = [mkSocket "ws://localhost:8000/live-captioning" defaultOptions OPEN].
Proof.
  split; [reflexivity|].
  exact (proj1 (proj2 (X9_options_are_sent_once_when_the_socket_opens initialWorld eq_refl))).
Defined.

(** X10.  When a live connection fails or is closed by the remote side, the
    component state does not change: the recording flag stays as it was, no
    error is reported to the user and no new socket is opened (there is no
    reconnection); a failure writes one console line.  After the close no
    frame of that socket is delivered. *)
Theorem X10_connection_loss_is_not_shown :
  forall (w : World) (ws : nat) (sock : Socket),
    nth_error (sockets w) ws = Some sock ->
    step w (SocketFailed ws) = (w, [ConsoleError (Some "Live captioning error:") LogEvent]) /\
    app (fst (step w (SocketClosed ws))) = app w /\
    snd (step w (SocketClosed ws)) = [] /\
    List.length (sockets (fst (step w (SocketClosed ws)))) = List.length (sockets w) /\
    forall data,
      snd (step (fst (step w (SocketClosed ws))) (FrameReceived ws data)) = [].
Proof.
  intros w ws sock Hs.
  split; [unfold step; cbn [dispatch settle]; rewrite Hs; destruct w; reflexivity|].
  split; [reflexivity|]. split; [reflexivity|].
  assert (Hlen : forall f l n, List.length (update n f l) = List.length l).
  { intros f l. induction l as [|x l IH]; intros [|n]; cbn; try reflexivity.
    rewrite IH. reflexivity. }
  split; [unfold step; cbn [dispatch settle trace ret fst run fold_left sockets]; apply Hlen|].
  intros data. rewrite frame_step_not_open; [reflexivity|].
  unfold step, is_open, state_of. cbn [dispatch settle trace ret fst run fold_left sockets].
  rewrite nth_error_update, Nat.eqb_refl, Hs. reflexivity.
Qed.

Lemma X10_live_channel_lost :
  nth_error (sockets liveWorld) 0
    = Some (mkSocket "ws://localhost:8000/live-captioning" defaultOptions OPEN) /\
  App.isRecording (app (fst (step liveWorld (SocketClosed 0)))) = true /\
  App.error (app (fst (step liveWorld (SocketClosed 0)))) = None.
Proof.
  split; [reflexivity|].
  pose proof (X10_connection_loss_is_not_shown liveWorld 0 _ eq_refl) as (_ & Happ & _).
  rewrite Happ. split; reflexivity.
Defined.

(** X11.  The recording flag is shared by the two toggles.  Pressed while
    a recording session is active, the captioning button takes its stop
    path: it sends no request, opens and closes no socket, keeps the session
    identifier and clears the flag.  The record handler of the render that
    follows then takes its start branch: the one request it sends is a start
    request, not a stop of the session that is stored. *)
Theorem X11_captioning_button_during_a_recording :
  forall (w : World) (net : Net),
    App.isRecording (app w) = true ->
    truthy (App.currentSessionId (app w)) = true ->
    snd (step w LiveClick) = [SetIsRecording false] /\
    sockets (fst (step w LiveClick)) = sockets w /\
    App.currentSessionId (app (fst (step w LiveClick))) = App.currentSessionId (app w) /\
    App.isRecording (app (fst (step w LiveClick))) = false /\
    requests (trace (App.handleRecordToggle net (app (fst (step w LiveClick)))))
      = [start_request (App.getTranscriptionOptions (app w))].
Proof.
  intros w net Hrec Hid. rewrite (live_stop_step _ Hrec). cbn [fst snd sockets app].
  repeat split.
  rewrite handleRecordToggle_start by reflexivity. cbn [trace fst requests].
  destruct (outcome (api.startRecording net _)); reflexivity.
Qed.

Lemma X11_active_session_then_captioning_button :
  App.isRecording (app (mkWorld activeState [])) = true /\
  truthy (App.currentSessionId (app (mkWorld activeState []))) = true /\
  App.currentSessionId (app (fst (step (mkWorld activeState []) LiveClick))) = VStr "s1" /\
  requests (trace (App.handleRecordToggle (net_ok (session_value "s2"))
                     (app (fst (step (mkWorld activeState []) LiveClick)))))
    = [start_request defaultOptions].
Proof.
  split; [reflexivity|]. split; [reflexivity|].
  pose proof (X11_captioning_button_during_a_recording (mkWorld activeState [])
                (net_ok (session_value "s2")) eq_refl eq_refl) as (_ & _ & Hid & _ & Hreq).
  split; [exact Hid | exact Hreq].
Defined.

(** X12.  Pressed while live captioning is on (the flag is set, no session
    identifier is stored), the record button takes its stop branch: it sends
    no request, leaves every socket as it is and clears the flag.  The
    captioning button pressed next opens a further socket beside the ones
    that are still there. *)
Theorem X12_record_button_during_captioning :
  forall (w : World) (net : Net),
    App.isRecording (app w) = true ->
    truthy (App.currentSessionId (app w)) = false ->
    snd (step w (RecordClick net)) = [SetIsRecording false; SetCurrentSessionId VNull] /\
    sockets (fst (step w (RecordClick net))) = sockets w /\
    buffers (app (fst (step w (RecordClick net)))) = buffers (app w) /\
    App.isRecording (app (fst (step w (RecordClick net)))) = false /\
    sockets (fst (step (fst (step w (RecordClick net))) LiveClick))
      = sockets w ++ [mkSocket api.wsUrl (App.getTranscriptionOptions (app w)) CONNECTING].
Proof.
  intros w net Hrec Hid.
  assert (Hstep : step w (RecordClick net) =
                  (mkWorld (App.apply (App.apply (app w) (SetIsRecording false))
                              (SetCurrentSessionId VNull)) (sockets w),
                   [SetIsRecording false; SetCurrentSessionId VNull])).
  { unfold step. cbn [dispatch settle].
    rewrite (handleRecordToggle_stop _ _ Hrec), Hid. reflexivity. }
  rewrite Hstep. cbn [fst snd sockets app]. repeat split.
Qed.

Lemma X12_record_button_on_live_world :
  App.isRecording (app liveWorld) = true /\
  truthy (App.currentSessionId (app liveWorld)) = false /\
  snd (step liveWorld (RecordClick net_down)) = [SetIsRecording false; SetCurrentSessionId VNull] /\
  List.length (sockets (fst (step (fst (step liveWorld (RecordClick net_down))) LiveClick))) = 2.
Proof.
  split; [reflexivity|]. split; [reflexivity|].
  pose proof (X12_record_button_during_captioning liveWorld net_down eq_refl eq_refl)
    as (Htrace & _ & _ & _ & Hsockets).
  split; [exact Htrace|]. rewrite Hsockets. reflexivity.
Defined.

(** X13.  The processing flag is written by the two upload handlers and
    by nothing else.  An upload with a file selected sets the flag as its
    first action, sends its one request while the flag is set, and resets the
    flag as its last action on every path; in between it does not write it.
    The record toggle, the captioning toggle, the effect cleanup and the
    three socket handlers never write it. *)
Theorem X13_only_uploads_write_the_processing_flag :
  forall (net : Net) (snap : App.AppState),
    (forall file rest,
       exists middle,
         trace (App.handleFileUpload net snap (Some (file :: rest)))
           = SetIsProcessing true :: middle ++ [SetIsProcessing false] /\
         spares ProcessingFlag middle = true /\
         requests middle = [transcribe_request file (App.getTranscriptionOptions snap)]) /\
    (forall file rest,
       exists middle,
         trace (App.handleBatchUpload net snap (Some (file :: rest)))
           = SetIsProcessing true :: middle ++ [SetIsProcessing false] /\
         spares ProcessingFlag middle = true /\
         requests middle
           = [batch_request (file :: rest) (App.getTranscriptionOptions snap)]) /\
    spares ProcessingFlag (trace (App.handleRecordToggle net snap)) = true /\
    (forall ws, spares ProcessingFlag (trace (App.handleLiveCaptioning ws snap)) = true) /\
    spares ProcessingFlag (trace (App.effectCleanup net snap)) = true /\
    (forall ws options, spares ProcessingFlag (trace (api.ws_onopen ws options)) = true) /\
    (forall data, spares ProcessingFlag (trace (api.ws_onmessage App.onUpdate data)) = true) /\
    spares ProcessingFlag (trace api.ws_onerror) = true.
Proof.
  intros net snap.
  split; [|split; [|split; [|split; [|split; [|split; [|split]]]]]].
  - intros file rest. rewrite handleFileUpload_computed. cbn [trace fst].
    eexists ([SetError None; Fetch _] ++ completion SetFileTranscription _ _).
    split; [reflexivity|].
    rewrite spares_app, requests_app, spares_completion, requests_completion by reflexivity.
    split; reflexivity.
  - intros file rest. rewrite handleBatchUpload_computed. cbn [trace fst].
    eexists ([SetError None; Fetch _] ++ completion SetBatchTranscription _ _).
    split; [reflexivity|].
    rewrite spares_app, requests_app, spares_completion, requests_completion by reflexivity.
    split; reflexivity.
  - destruct (App.isRecording snap) eqn:Hrec.
    + rewrite (handleRecordToggle_stop _ _ Hrec). cbn [trace fst]. rewrite spares_app.
      destruct (truthy (App.currentSessionId snap)); [|reflexivity].
      change (Fetch ?x :: ?l) with ([Fetch x] ++ l).
      rewrite spares_app, spares_completion by reflexivity. reflexivity.
    + rewrite (handleRecordToggle_start _ _ Hrec). cbn [trace fst].
      destruct (outcome (api.startRecording net _)); reflexivity.
  - intros ws. rewrite handleLiveCaptioning_computed.
    destruct (App.isRecording snap); reflexivity.
  - rewrite effectCleanup_computed.
    destruct (truthy (App.currentSessionId snap)); [|reflexivity].
    destruct (settled net _ "Failed to stop recording"); reflexivity.
  - reflexivity.
  - intros data. rewrite ws_onmessage_cases.
    destruct (truthy (text_field data)); [reflexivity|].
    destruct data as [raw | v]; [reflexivity|]. destruct v; reflexivity.
  - reflexivity.
Qed.

(** ** Further properties: copy and download *)










(** ** Further properties: what the client sends *)

Lemma substring_whole s : String.substring 0 (String.length s) s = s.
Proof. induction s as [|c s IH]; [reflexivity | cbn; rewrite IH; reflexivity]. Qed.

(** X16.  The live-captioning address is derived from the base address by
    replacing a leading [http] with [ws]: [http://host] becomes [ws://host]
    and [https://host] becomes [wss://host], whatever follows; an address
    that does not start with [http] is used as it is. *)
Theorem X16_leading_http_becomes_ws :
  forall (rest : string),
    api.replace_http ("http" ++ rest) = ("ws" ++ rest)%string /\
    api.replace_http ("https://" ++ rest) = ("wss://" ++ rest)%string /\
    forall s, String.prefix "http" s = false -> api.replace_http s = s.
Proof.
  intros rest.
  assert (Hgen : forall r, api.replace_http ("http" ++ r) = ("ws" ++ r)%string).
  { intros r. unfold api.replace_http.
    replace (String.prefix "http" ("http" ++ r)) with true by (destruct r; reflexivity).
    cbn [String.append String.length Nat.sub String.substring].
    rewrite Nat.sub_0_r, substring_whole. reflexivity. }
  split; [apply Hgen|]. split; [exact (Hgen ("s://" ++ rest)%string)|].
  intros s Hs. unfold api.replace_http. rewrite Hs. reflexivity.
Qed.

Lemma X16_other_scheme_is_kept :
  String.prefix "http" "ftp://localhost" = false /\
  api.replace_http "ftp://localhost" = "ftp://localhost".
Proof.
  split; [reflexivity|].
  exact (proj2 (proj2 (X16_leading_http_becomes_ws "")) "ftp://localhost" eq_refl).
Defined.

Lemma form_entries_files files tail :
  (forall e, In e tail -> String.eqb (fst e) "files" = false) ->
  map snd (filter (fun e : string * FormValue => String.eqb (fst e) "files")
             (map (fun file => ("files", FormFile file (name file))) files ++ tail))
    = map (fun file => FormFile file (name file)) files.
Proof.
  intros Htail. induction files as [|f files IH].
  - cbn [map List.app]. induction tail as [|e tail IHt]; [reflexivity|].
    cbn [filter]. cbv beta. rewrite (Htail e (or_introl eq_refl)).
    apply IHt. intros e' He'. apply Htail. right. exact He'.
  - cbn [map List.app filter fst]. cbv beta. cbn [fst String.eqb Ascii.eqb Bool.eqb map snd]. f_equal. exact IH.
Qed.

(** X17.  A batch call sends exactly one POST request to
    [/transcribe-batch], also for an empty list of files.  Its form carries
    every file once, in the order given, under the field [files] and with the
    file's own name, followed by the four option fields.  The call fails with
    the rejection of [fetch] when the network fails, with
    [Error "Batch transcription failed"] on a non-success status, with the
    rejection of [response.json()] on a body that is not JSON; any JSON body
    is returned as it is. *)
Theorem X17_batch_call_sends_every_file_once :
  forall (net : Net) (files : list File) (options : TranscriptionOptions),
    exists req,
      trace (api.transcribeBatch net files options) = [Fetch req] /\
      url req = "http://localhost:8000/transcribe-batch" /\
      method req = "POST" /\
      form_entries "files" (body req) = map (fun file => FormFile file (name file)) files /\
      form_fields (body req)
        = repeat "files" (List.length files) ++
          ["model_size"; "input_lang"; "output_lang"; "out_format"] /\
      form_entries "model_size" (body req) = [FormText (types.modelSize options)] /\
      form_entries "input_lang" (body req) = [FormText (inputLanguage options)] /\
      form_entries "output_lang" (body req) = [FormText (outputLanguage options)] /\
      form_entries "out_format" (body req) = [FormText (format options)] /\
      outcome (api.transcribeBatch net files options) =
        match net req with
        | Rejects e => inl e
        | Resolves r => if ok r then json r else inl (Error "Batch transcription failed")
        end.
Proof.
  intros net files options. exists (batch_request files options).
  rewrite transcribeBatch_spec. cbn [trace outcome fst snd].
  split; [reflexivity|]. split; [reflexivity|]. split; [reflexivity|].
  assert (Hother : forall field,
            String.eqb "files" field = false ->
            forall tail,
              map snd (filter (fun e : string * FormValue => String.eqb (fst e) field)
                         (map (fun file => ("files", FormFile file (name file))) files ++ tail))
                = map snd (filter (fun e : string * FormValue => String.eqb (fst e) field) tail)).
  { intros field Hfield tail. induction files as [|f files IH]; [reflexivity|].
    cbn [map List.app filter]. cbv beta. cbn [fst]. rewrite Hfield. exact IH. }
  unfold batch_request, form_entries, form_fields. cbn [body].
  split.
  { apply form_entries_files. intros e He. cbn in He.
    destruct He as [<- | [<- | [<- | [<- | []]]]]; reflexivity. }
  split.
  { rewrite map_app, map_map. cbn [fst]. f_equal.
    clear Hother. induction files as [|f files IH]; [reflexivity|].
    cbn [map List.length repeat]. rewrite IH. reflexivity. }
  repeat split; try (rewrite Hother by reflexivity; reflexivity).
Qed.

(** ** Further properties: untyped fragments, and the session invariant *)



Lemma other_events_spare_session w e :
  is_live_click e = false ->
  (forall n, e <> RecordClick n) ->
  spares RecordingFlag (snd (step w e)) = true /\ spares SessionId (snd (step w e)) = true.
Proof.
  intros Hlive Hrecord. unfold step. cbn [snd].
  destruct e; cbn [dispatch]; try discriminate.
  - destruct files as [[|file rest]|]; try (split; reflexivity).
    rewrite handleFileUpload_computed. cbn [trace fst].
    rewrite !spares_app, !spares_completion by reflexivity. split; reflexivity.
  - destruct files as [[|file rest]|]; try (split; reflexivity).
    rewrite handleBatchUpload_computed. cbn [trace fst].
    rewrite !spares_app, !spares_completion by reflexivity. split; reflexivity.
  - contradiction (Hrecord net). reflexivity.
  - rewrite effectCleanup_computed.
    destruct (truthy (App.currentSessionId (app w))); [|split; reflexivity].
    destruct (settled net _ "Failed to stop recording"); split; reflexivity.
  - destruct (nth_error (sockets w) ws) as [sock|]; [|split; reflexivity].
    destruct (readyState sock); split; reflexivity.
  - destruct (is_open w ws); [|split; reflexivity].
    rewrite ws_onmessage_cases. destruct (truthy (text_field data)); [split; reflexivity|].
    destruct data as [raw | v]; [split; reflexivity|]. destruct v; split; reflexivity.
  - destruct (nth_error (sockets w) ws); split; reflexivity.
  - split; reflexivity.
Qed.

Lemma session_is_recording_step w e :
  is_live_click e = false ->
  session_is_recording (app w) -> session_is_recording (app (fst (step w e))).
Proof.
  intros Hlive Hinv. rewrite app_step. unfold session_is_recording in *.
  destruct e eqn:He; try discriminate;
    try (destruct (other_events_spare_session w e) as [Hr Hs];
         [subst e; reflexivity | subst e; discriminate |];
         subst e;
         rewrite (proj1 (exec_spares_flags _ (app w)) Hr),
                 (proj1 (proj2 (proj2 (exec_spares_flags _ (app w)))) Hs);
         exact Hinv).
  unfold step. cbn [snd dispatch].
  destruct (App.isRecording (app w)) eqn:Hrec.
  - rewrite (handleRecordToggle_stop _ _ Hrec). cbn [trace fst]. rewrite exec_app.
    cbn [App.exec fold_left App.apply App.currentSessionId truthy]. discriminate.
  - rewrite (handleRecordToggle_start _ _ Hrec). cbn [trace fst].
    destruct (outcome (api.startRecording net _)) as [err | sid].
    + cbn [App.exec fold_left App.apply App.currentSessionId App.isRecording].
      rewrite Hrec. exact Hinv.
    + intros _. reflexivity.
Qed.

(** X19.  As long as the captioning button is not pressed, a stored
    session identifier always goes with the recording flag: if that holds
    before a sequence of uploads, record toggles, unmount cleanups and socket
    events, it holds after it, whatever the network answers.  So the record
    button then always offers the stop of a stored session. *)
Theorem X19_stored_session_keeps_the_flag_without_captioning :
  forall (w : World) (es : list Event),
    forallb (fun e => negb (is_live_click e)) es = true ->
    session_is_recording (app w) ->
    session_is_recording (app (fst (steps w es))).
Proof.
  intros w es. revert w. induction es as [|e es IH]; intros w Hes Hinv; [exact Hinv|].
  cbn [forallb] in Hes. apply andb_prop in Hes as [He Hes].
  rewrite fst_steps_cons. apply IH; [exact Hes|].
  apply session_is_recording_step; [|exact Hinv].
  destruct (is_live_click e); [discriminate | reflexivity].
Qed.

Lemma X19_record_and_upload :
  forallb (fun e => negb (is_live_click e))
    [RecordClick (net_ok (session_value "s1")); FileChange net_down (Some [sampleFile])] = true /\
  session_is_recording (app initialWorld) /\
  session_is_recording
    (app (fst (steps initialWorld
                 [RecordClick (net_ok (session_value "s1"));
                  FileChange net_down (Some [sampleFile])]))).
Proof.
  assert (H0 : session_is_recording (app initialWorld)) by (intros H; discriminate H).
  split; [reflexivity|]. split; [exact H0|].
  exact (X19_stored_session_keeps_the_flag_without_captioning initialWorld
           [RecordClick (net_ok (session_value "s1")); FileChange net_down (Some [sampleFile])]
           eq_refl H0).
Defined.

(** X20.  Start and stop fit together: when a start from idle is answered
    with a usable identifier, the start handler sends one start request and
    stores the identifier, and the stop handler of the render that follows
    sends one request, a stop whose body carries the very identifier the
    service returned; when that handler has run, the component is idle
    again. *)
Theorem X20_stop_carries_the_identifier_the_start_returned :
  forall (net net' : Net) (snap s : App.AppState) (sessionId : value),
    App.isRecording snap = false ->
    outcome (api.startRecording net (App.getTranscriptionOptions snap)) = inr sessionId ->
    truthy sessionId = true ->
    requests (trace (App.handleRecordToggle net snap))
      = [start_request (App.getTranscriptionOptions snap)] /\
    App.currentSessionId (after_record_toggle net snap s) = sessionId /\
    requests (trace (App.handleRecordToggle net' (after_record_toggle net snap s)))
      = [stop_request sessionId] /\
    App.isRecording
      (after_record_toggle net' (after_record_toggle net snap s)
         (after_record_toggle net snap s)) = false /\
    App.currentSessionId
      (after_record_toggle net' (after_record_toggle net snap s)
         (after_record_toggle net snap s)) = VNull.
Proof.
  intros net net' snap s sessionId Hidle Hstart Hid.
  assert (Hstate : App.isRecording (after_record_toggle net snap s) = true /\
                   App.currentSessionId (after_record_toggle net snap s) = sessionId).
  { unfold after_record_toggle. rewrite (handleRecordToggle_start _ _ Hidle), Hstart.
    split; reflexivity. }
  destruct Hstate as [Hrec Hsid].
  set (mid := after_record_toggle net snap s) in *.
  split; [rewrite (handleRecordToggle_start _ _ Hidle), Hstart; reflexivity|].
  split; [exact Hsid|].
  split; [rewrite (stop_requests _ _ Hrec), Hsid, Hid; reflexivity|].
  destruct (stop_resets net' mid mid Hrec) as [Hnull Hflag].
  split; [exact Hflag | exact Hnull].
Qed.

Lemma X20_start_s1_then_stop :
  App.isRecording App.initialState = false /\
  outcome (api.startRecording (net_ok (session_value "s1"))
             (App.getTranscriptionOptions App.initialState)) = inr (VStr "s1") /\
  truthy (VStr "s1") = true /\
  requests (trace (App.handleRecordToggle net_down
                     (after_record_toggle (net_ok (session_value "s1"))
                        App.initialState App.initialState)))
    = [stop_request (VStr "s1")].
Proof.
  split; [reflexivity|]. split; [reflexivity|]. split; [reflexivity|].
  pose proof (X20_stop_carries_the_identifier_the_start_returned
                (net_ok (session_value "s1")) net_down App.initialState App.initialState
                (VStr "s1") eq_refl eq_refl eq_refl) as (_ & _ & Hstop & _).
  exact Hstop.
Defined.
